(** * Webflow form validation (validation.js): a shallow embedding

    The script opts a form into validation through HTML attributes.  This
    development embeds its functions ([normalizeKey], [getFieldKey],
    [buildErrorMap], [setFieldErrorState], [validateField], [handleField],
    [validateForm] and the submit listener of [setupForm]) and states the
    properties of the specification over them.

    Conventions of the embedding:
    - a JavaScript string is a [string]; a character is one code unit below
      256, and every string function is the JavaScript one on such strings;
    - [null] attribute values are [None];
    - the elements of the form are a [list Element] in document order, an
      element reference is its position in that list; an element's text is
      its own (error elements hold text, not other elements of the form);
    - the object literal [{}] that maps keys to error elements is a [gmap]
      of its own properties, read through [Object.prototype];
    - the mutable page (classes, text, attributes, the submit event, focus)
      is a [World] threaded through a state-and-exception monad [M];
    - what the browser provides and the script only calls ([Number], number
      comparison, [new RegExp]) is the interface [Platform]. *)

From Stdlib Require Import Ascii NArith ZArith Bool.
From stdpp Require Import base gmap strings list fin_maps.

Set Default Proof Using "Type".
Set Warnings "-clear-no-such-hyp".

(** ** Characters and strings *)

Module JsString.

Definition code (c : ascii) : N := N_of_ascii c.

Definition in_range (lo hi : N) (c : ascii) : bool :=
  ((lo <=? code c) && (code c <=? hi))%N.

(** [0-9], [a-z] and [A-Z]. *)
Definition isDigit (c : ascii) : bool := in_range 48 57 c.
Definition isLowerAZ (c : ascii) : bool := in_range 97 122 c.
Definition isUpperAZ (c : ascii) : bool := in_range 65 90 c.

(** The class [[a-z0-9]] of [normalizeKey]. *)
Definition isKeyChar (c : ascii) : bool := isLowerAZ c || isDigit c.

(** White space and line terminators below code 256: TAB, LF, VT, FF, CR,
    SPACE and NO-BREAK SPACE.  This is the set that [trim] strips and that
    [\s] matches. *)
Definition isWhiteSpace (c : ascii) : bool :=
  in_range 9 13 c || (code c =? 32)%N || (code c =? 160)%N.

(** [.] in a regular expression without the s flag: anything but LF, CR. *)
Definition isLineTerminator (c : ascii) : bool :=
  (code c =? 10)%N || (code c =? 13)%N.

(** One character of [toLowerCase]: A-Z, and the Latin-1 capitals
    U+00C0..U+00DE except the multiplication sign U+00D7, move up by 32. *)
Definition toLowerChar (c : ascii) : ascii :=
  if isUpperAZ c || (in_range 192 222 c && negb (code c =? 215)%N)
  then ascii_of_N (code c + 32) else c.

Fixpoint smap (f : ascii -> ascii) (s : string) : string :=
  match s with
  | EmptyString => EmptyString
  | String c s' => String (f c) (smap f s')
  end.

Fixpoint sfilter (p : ascii -> bool) (s : string) : string :=
  match s with
  | EmptyString => EmptyString
  | String c s' => if p c then String c (sfilter p s') else sfilter p s'
  end.

Fixpoint sforall (p : ascii -> bool) (s : string) : bool :=
  match s with
  | EmptyString => true
  | String c s' => p c && sforall p s'
  end.

Definition toLowerCase (s : string) : string := smap toLowerChar s.

(** [!s] on a string: only the empty string is falsy. *)
Definition isEmpty (s : string) : bool :=
  match s with EmptyString => true | _ => false end.

Fixpoint trimStart (s : string) : string :=
  match s with
  | EmptyString => EmptyString
  | String c s' => if isWhiteSpace c then trimStart s' else s
  end.

Fixpoint trimEnd (s : string) : string :=
  match s with
  | EmptyString => EmptyString
  | String c s' =>
      let t := trimEnd s' in
      if isWhiteSpace c && isEmpty t then EmptyString else String c t
  end.

Definition trim (s : string) : string := trimEnd (trimStart s).

(** [s.lastIndexOf(c)] for a one-character needle: the position of the last
    occurrence, [-1] when there is none. *)
Fixpoint lastIndexOf_from (c : ascii) (s : string) (i : Z) (found : Z) : Z :=
  match s with
  | EmptyString => found
  | String d s' =>
      lastIndexOf_from c s' (i + 1) (if Ascii.eqb d c then i else found)
  end.

Definition lastIndexOf (s : string) (c : ascii) : Z :=
  lastIndexOf_from c s 0 (-1).

Fixpoint sdrop (n : nat) (s : string) : string :=
  match n, s with
  | O, _ => s
  | S n', String _ s' => sdrop n' s'
  | S _, EmptyString => EmptyString
  end.

(** [s.slice(start)] for a start that is not negative. *)
Definition slice (s : string) (start : Z) : string := sdrop (Z.to_nat start) s.

(** [a || b] on attribute values ([null] or a string): the first operand
    when it is truthy (a string that is not empty), else the second. *)
Definition or_else (a b : option string) : option string :=
  match a with
  | Some s => if isEmpty s then b else a
  | None => b
  end.

(** [(a || '')]. *)
Definition or_empty (a : option string) : string :=
  match a with
  | Some s => s
  | None => EmptyString
  end.

End JsString.

Import JsString.

(** ** Regular expressions of the script

    The three literal patterns of [validateField] are anchored at both ends
    and capture nothing, so [pattern.test(value)] is membership of the whole
    value in a regular language.  [Regex.test] decides it with Brzozowski
    derivatives; [Regex.Matches] is the language itself. *)

Module Regex.

Inductive regex : Type :=
| Void : regex
| Eps : regex
| Cls (p : ascii -> bool) : regex
| Cat (r s : regex) : regex
| Alt (r s : regex) : regex
| And (r s : regex) : regex
| Star (r : regex) : regex.

Inductive Matches : regex -> list ascii -> Prop :=
| MEps : Matches Eps []
| MCls p c : p c = true -> Matches (Cls p) [c]
| MCat r s u v : Matches r u -> Matches s v -> Matches (Cat r s) (u ++ v)
| MAltL r s u : Matches r u -> Matches (Alt r s) u
| MAltR r s u : Matches s u -> Matches (Alt r s) u
| MAnd r s u : Matches r u -> Matches s u -> Matches (And r s) u
| MStar0 r : Matches (Star r) []
| MStarS r u v : Matches r u -> Matches (Star r) v -> Matches (Star r) (u ++ v).

Fixpoint nullable (r : regex) : bool :=
  match r with
  | Void => false
  | Eps => true
  | Cls _ => false
  | Cat r s => nullable r && nullable s
  | Alt r s => nullable r || nullable s
  | And r s => nullable r && nullable s
  | Star _ => true
  end.

Fixpoint deriv (c : ascii) (r : regex) : regex :=
  match r with
  | Void => Void
  | Eps => Void
  | Cls p => if p c then Eps else Void
  | Cat r s =>
      if nullable r then Alt (Cat (deriv c r) s) (deriv c s)
      else Cat (deriv c r) s
  | Alt r s => Alt (deriv c r) (deriv c s)
  | And r s => And (deriv c r) (deriv c s)
  | Star r => Cat (deriv c r) (Star r)
  end.

Fixpoint matchesb (r : regex) (w : list ascii) : bool :=
  match w with
  | [] => nullable r
  | c :: w' => matchesb (deriv c r) w'
  end.

(** [/^r$/.test(s)]. *)
Definition test (r : regex) (s : string) : bool :=
  matchesb r (String.list_ascii_of_string s).

(** Derived forms. *)
Definition Chr (c : ascii) : regex := Cls (Ascii.eqb c).
(** A letter under the i flag. *)
Definition ChrI (c : ascii) : regex :=
  Cls (fun d => Ascii.eqb (toLowerChar d) (toLowerChar c) && (code d <? 128)%N).
Definition Any : regex := Cls (fun _ => true).
Definition Plus (r : regex) : regex := Cat r (Star r).
Definition Opt (r : regex) : regex := Alt Eps r.
(** [r{2,}]. *)
Definition AtLeast2 (r : regex) : regex := Cat r (Cat r (Star r)).
(** [(?=r)] at the start of a pattern [s] anchored at both ends: the value
    has a prefix in [r] and is in [s]. *)
Definition LookaheadThen (r s : regex) : regex := And (Cat r (Star Any)) s.

End Regex.

Import Regex.

(** [/^(?=.*\d)[0-9+]+$/] *)
Definition phonePattern : regex :=
  LookaheadThen
    (Cat (Star (Cls (fun c => negb (isLineTerminator c)))) (Cls isDigit))
    (Plus (Cls (fun c => isDigit c || Ascii.eqb c "+"))).

(** [[^\s@]] *)
Definition notSpaceAt (c : ascii) : bool :=
  negb (isWhiteSpace c || Ascii.eqb c "@").

(** [/^[^\s@]+@[^\s@]+\.[^\s@]+$/] *)
Definition emailPattern : regex :=
  Cat (Plus (Cls notSpaceAt))
    (Cat (Chr "@")
       (Cat (Plus (Cls notSpaceAt))
          (Cat (Chr ".") (Plus (Cls notSpaceAt))))).

(** [/^(https?:\/\/)?[^\s.]+\.[^\s]{2,}$/i] *)
Definition urlPattern : regex :=
  Cat
    (Opt (Cat (ChrI "h") (Cat (ChrI "t") (Cat (ChrI "t") (Cat (ChrI "p")
       (Cat (Opt (ChrI "s")) (Cat (Chr ":") (Cat (Chr "/") (Chr "/")))))))))
    (Cat (Plus (Cls (fun c => negb (isWhiteSpace c || Ascii.eqb c "."))))
       (Cat (Chr ".") (AtLeast2 (Cls (fun c => negb (isWhiteSpace c)))))).

(** ** What the browser provides *)

(** [Number(s)], [Number.isNaN], [<] on numbers, a string's length as a
    number, and [new RegExp(p)]: [None] when the constructor throws a
    SyntaxError, else the [test] method of the compiled expression. *)
Class Platform := {
  JSNumber : Type;
  Number : string -> JSNumber;
  Number_isNaN : JSNumber -> bool;
  Number_lt : JSNumber -> JSNumber -> bool;
  Number_of_length : nat -> JSNumber;
  RegExp : string -> option (string -> bool);
}.

(** ** Values, objects, elements *)

(** The values that reach the [errorEl] parameter: [null], [undefined], an
    element of the form, or a built-in inherited from [Object.prototype]. *)
Inductive JsValue : Type :=
| VNull : JsValue
| VUndefined : JsValue
| VElement (el : nat) : JsValue
| VBuiltin (name : string) : JsValue.

Definition truthy (v : JsValue) : bool :=
  match v with
  | VElement _ | VBuiltin _ => true
  | VNull | VUndefined => false
  end.

(** The object [var map = {}] of [buildErrorMap]: its own properties are a
    [gmap]; a property read that finds no own property continues in
    [Object.prototype]. *)
Module JsObject.

Definition ObjectPrototype : list string :=
  [ "constructor"; "hasOwnProperty"; "isPrototypeOf"; "propertyIsEnumerable";
    "toLocaleString"; "toString"; "valueOf"; "__defineGetter__";
    "__defineSetter__"; "__lookupGetter__"; "__lookupSetter__"; "__proto__" ].

Definition inherited (k : string) : bool :=
  existsb (String.eqb k) ObjectPrototype.

(** [map[k]] *)
Definition get (own : gmap string nat) (k : string) : JsValue :=
  match own !! k with
  | Some el => VElement el
  | None => if inherited k then VBuiltin k else VUndefined
  end.

(** [map[k] = el], for a key other than [__proto__]. *)
Definition set (own : gmap string nat) (k : string) (el : nat) : gmap string nat :=
  <[k := el]> own.

End JsObject.

Record Element : Type := mkElement {
  tagName : string;
  (** the [type] property (not the attribute), as [field.type] reads it *)
  type : string;
  attributes : gmap string string;
  value : string;
  checked : bool;
  classList : gset string;
  textContent : string;
}.

Global Instance Element_inhabited : Inhabited Element :=
  populate (mkElement "" "" ∅ "" false ∅ "").

Definition getAttribute (e : Element) (name : string) : option string :=
  attributes e !! name.

Definition hasAttribute (e : Element) (name : string) : bool :=
  match attributes e !! name with Some _ => true | None => false end.

Definition classList_contains (e : Element) (cls : string) : bool :=
  bool_decide (cls ∈ classList e).

(** [el.dataset.defaultMessage] is the attribute [data-default-message]. *)
Definition dataset_defaultMessage (e : Element) : option string :=
  getAttribute e "data-default-message".

Definition with_classList (f : gset string -> gset string) (e : Element) : Element :=
  mkElement (tagName e) (type e) (attributes e) (value e) (checked e)
    (f (classList e)) (textContent e).

Definition with_textContent (t : string) (e : Element) : Element :=
  mkElement (tagName e) (type e) (attributes e) (value e) (checked e)
    (classList e) t.

Definition with_attribute (name v : string) (e : Element) : Element :=
  mkElement (tagName e) (type e) (<[name := v]> (attributes e)) (value e)
    (checked e) (classList e) (textContent e).

(** The page as the script sees it: the form's elements in document order,
    the submit event being dispatched, and the element that was last asked to
    take focus. *)
Record World : Type := mkWorld {
  elements : list Element;
  defaultPrevented : bool;
  propagationStopped : bool;
  focused : option nat;
}.

Definition getElement (w : World) (i : nat) : Element := elements w !!! i.

(** ** State and exceptions *)

Inductive outcome (A : Type) : Type :=
| Normal (a : A) : outcome A
| Throw (err : string) : outcome A.
Arguments Normal {A} a.
Arguments Throw {A} err.

Definition M (A : Type) : Type := World -> World * outcome A.

Global Instance M_ret : MRet M := fun A a w => (w, Normal a).
Global Instance M_bind : MBind M := fun A B k m w =>
  match m w with
  | (w', Normal a) => k a w'
  | (w', Throw e) => (w', Throw e)
  end.

Definition throw {A : Type} (err : string) : M A := fun w => (w, Throw err).
Definition gets {A : Type} (f : World -> A) : M A := fun w => (w, Normal (f w)).
Definition modify (f : World -> World) : M unit := fun w => (f w, Normal tt).

(** A write to the element at position [i]. *)
Definition updateWorld (i : nat) (f : Element -> Element) (w : World) : World :=
  mkWorld (alter f i (elements w)) (defaultPrevented w) (propagationStopped w)
    (focused w).

Definition updateElement (i : nat) (f : Element -> Element) : M unit :=
  modify (updateWorld i f).

Definition classList_add (i : nat) (cls : string) : M unit :=
  updateElement i (with_classList (fun s => s ∪ {[cls]})).
Definition classList_remove (i : nat) (cls : string) : M unit :=
  updateElement i (with_classList (fun s => s ∖ {[cls]})).
Definition set_textContent (i : nat) (t : string) : M unit :=
  updateElement i (with_textContent t).
Definition set_dataset_defaultMessage (i : nat) (t : string) : M unit :=
  updateElement i (with_attribute "data-default-message" t).

Definition preventDefault : M unit :=
  modify (fun w => mkWorld (elements w) true (propagationStopped w) (focused w)).
Definition stopPropagation : M unit :=
  modify (fun w => mkWorld (elements w) (defaultPrevented w) true (focused w)).
(** [el.focus()] as the script states it: the request is recorded.  What
    the browser does while it moves the focus (a blur event on the element
    that had it, and with it the blur listener registered on that field) is
    not embedded; [focused] says on which element [focus()] was called. *)
Definition focus (i : nat) : M unit :=
  modify (fun w =>
    mkWorld (elements w) (defaultPrevented w) (propagationStopped w) (Some i)).

(** [xs.forEach(f)] *)
Fixpoint forEach {A : Type} (xs : list A) (f : A -> M unit) : M unit :=
  match xs with
  | [] => mret tt
  | x :: xs' => f x;; forEach xs' f
  end.

(** [form.querySelectorAll(...)]: the matching elements in document order. *)
Definition querySelectorAll (p : Element -> bool) (w : World) : list nat :=
  List.filter (fun i => p (getElement w i)) (seq 0 (length (elements w))).

Definition localName (e : Element) : string := toLowerCase (tagName e).

(** ** The script *)

Definition streq (a b : string) : bool := String.eqb a b.

(** [normalizeKey(str)]: [(str || '').toString().toLowerCase()
    .replace(/[^a-z0-9]/g, '')]. *)
Definition normalizeKey (str : option string) : string :=
  sfilter isKeyChar (toLowerCase (or_empty str)).

(** [getFieldKey(field)] *)
Definition getFieldKey (field : Element) : string :=
  let raw :=
    or_else (or_else (getAttribute field "name") (getAttribute field "id"))
      (getAttribute field "data-name") in
  normalizeKey raw.

(** The callback that [buildErrorMap] hands to [forEach]; [map] is the
    variable of the enclosing function, threaded through. *)
Definition buildErrorMap_each (map : gmap string nat) (el : nat)
  : M (gmap string nat) :=
  raw ← gets (fun w => getAttribute (getElement w el) "data-error-text");
  let key := normalizeKey raw in
  if isEmpty key then mret map
  else
    let map' :=
      if negb (truthy (JsObject.get map key)) then JsObject.set map key el
      else map in
    classList_remove el "is-visible";;
    mret map'.

Fixpoint buildErrorMap_loop (errorEls : list nat) (map : gmap string nat)
  : M (gmap string nat) :=
  match errorEls with
  | [] => mret map
  | el :: rest =>
      map' ← buildErrorMap_each map el;
      buildErrorMap_loop rest map'
  end.

(** [buildErrorMap(form)] *)
Definition buildErrorMap : M (gmap string nat) :=
  errorEls ← gets (querySelectorAll (fun e => hasAttribute e "data-error-text"));
  buildErrorMap_loop errorEls ∅.

(** [setFieldErrorState(field, errorEl, hasError, reason)].  A built-in has
    no [dataset], so reading [errorEl.dataset.defaultMessage] on it throws a
    TypeError. *)
Definition setFieldErrorState (field : nat) (errorEl : JsValue)
    (hasError : bool) (reason : option string) : M unit :=
  match errorEl with
  | VNull | VUndefined =>
      if hasError then classList_add field "is-invalid"
      else classList_remove field "is-invalid"
  | VBuiltin _ => throw "TypeError"
  | VElement e =>
      dm ← gets (fun w => dataset_defaultMessage (getElement w e));
      (if isEmpty (or_empty dm) then
         txt ← gets (fun w => textContent (getElement w e));
         set_dataset_defaultMessage e txt
       else mret tt);;
      if hasError then
        classList_add field "is-invalid";;
        classList_add e "is-visible";;
        second ← gets (fun w => getAttribute (getElement w field) "data-second-error");
        match reason, second with
        | Some r, Some msg =>
            if streq r "format" then set_textContent e msg
            else
              dm' ← gets (fun w => dataset_defaultMessage (getElement w e));
              set_textContent e (or_empty dm')
        | _, _ =>
            dm' ← gets (fun w => dataset_defaultMessage (getElement w e));
            set_textContent e (or_empty dm')
        end
      else
        classList_remove field "is-invalid";;
        classList_remove e "is-visible";;
        dm' ← gets (fun w => dataset_defaultMessage (getElement w e));
        set_textContent e (or_empty dm')
  end.

(** The verdict [{ valid, reason }]; [reason] is ['required'], ['format'] or
    [null]. *)
Record Verdict : Type := mkVerdict {
  valid : bool;
  reason : option string;
}.

Definition ok : Verdict := mkVerdict true None.
Definition failed (why : string) : Verdict := mkVerdict false (Some why).

(** The free-mail domains of the business-only check. *)
Definition freeDomains : list string :=
  [ "gmail.com"; "googlemail.com"; "yahoo.com"; "yahoo.co.uk"; "hotmail.com";
    "outlook.com"; "outlook.co.uk"; "live.com"; "msn.com"; "icloud.com";
    "me.com"; "mac.com"; "aol.com"; "protonmail.com"; "pm.me"; "yandex.com";
    "gmx.com"; "mail.com"; "zoho.com" ].

(** [list.indexOf(x) !== -1] *)
Definition includes (l : list string) (x : string) : bool :=
  existsb (streq x) l.

(** [value.slice(value.lastIndexOf('@') + 1).toLowerCase()] *)
Definition emailDomain (value : string) : string :=
  toLowerCase (slice value (lastIndexOf value "@" + 1)).

(** The lower-cased [type] attribute, as [validateField] and [handleField]
    compute it. *)
Definition typeAttr (field : Element) : string :=
  toLowerCase (or_empty (getAttribute field "type")).

Definition isCheckable (field : Element) : bool :=
  streq (typeAttr field) "checkbox" || streq (typeAttr field) "radio".

(** [var isRequired = field.hasAttribute('required') || !!errorEl] *)
Definition isRequired (field : Element) (errorEl : JsValue) : bool :=
  hasAttribute field "required" || truthy errorEl.

(** A block of [validateField] that may return: [Some v] is [return v],
    [None] falls through to the next statement.  [first_return] runs the
    blocks in order. *)
Fixpoint first_return (blocks : list (option Verdict)) (otherwise : Verdict)
  : Verdict :=
  match blocks with
  | [] => otherwise
  | Some v :: _ => v
  | None :: rest => first_return rest otherwise
  end.

Section ValidateField.
Context `{Platform}.

Definition check_tel (type value : string) : option Verdict :=
  if streq type "tel" then
    if negb (Regex.test phonePattern value) then Some (failed "format")
    else None
  else None.

Definition check_email (field : Element) (type value : string) : option Verdict :=
  if streq type "email" then
    if negb (Regex.test emailPattern value) then Some (failed "format")
    else if hasAttribute field "data-business-email-only" then
      let atIndex := lastIndexOf value "@" in
      if (atIndex =? -1)%Z then Some (failed "format")
      else
        let domain := toLowerCase (slice value (atIndex + 1)) in
        if includes freeDomains domain then Some (failed "format")
        else None
    else None
  else None.

Definition check_url (type value : string) : option Verdict :=
  if streq type "url" then
    if negb (Regex.test urlPattern value) then Some (failed "format")
    else None
  else None.

Definition check_number (field : Element) (isRequired : bool)
    (type value : string) : option Verdict :=
  if streq type "number" then
    if streq value "" then Some (mkVerdict (negb isRequired) None)
    else
      let num := Number value in
      if Number_isNaN num then Some (failed "format")
      else
        let minAttr := getAttribute field "min" in
        let maxAttr := getAttribute field "max" in
        if match minAttr with
           | Some m => Number_lt num (Number m)
           | None => false
           end
        then Some (failed "format")
        else if match maxAttr with
                | Some m => Number_lt (Number m) num
                | None => false
                end
        then Some (failed "format")
        else None
  else None.

Definition check_length (field : Element) (value : string) : option Verdict :=
  let minLengthAttr := getAttribute field "minlength" in
  let maxLengthAttr := getAttribute field "maxlength" in
  if match minLengthAttr with
     | Some m => Number_lt (Number_of_length (String.length value)) (Number m)
     | None => false
     end
  then Some (failed "format")
  else if match maxLengthAttr with
          | Some m => Number_lt (Number m) (Number_of_length (String.length value))
          | None => false
          end
  then Some (failed "format")
  else None.

(** The [try { ... } catch (e) { }] around the pattern: a pattern that does
    not compile is skipped. *)
Definition check_pattern (field : Element) (value : string) : option Verdict :=
  let patternAttr := getAttribute field "pattern" in
  if isEmpty (or_empty patternAttr) then None
  else
    match RegExp (or_empty patternAttr) with
    | Some re_test =>
        if negb (re_test value) then Some (failed "format") else None
    | None => None
    end.

(** The type-specific, length and pattern statements of [validateField], in
    their order, down to the final [return { valid: true, reason: null }]. *)
Definition typeChecks (field : Element) (isRequired : bool)
    (type value : string) : Verdict :=
  first_return
    [ check_tel type value;
      check_email field type value;
      check_url type value;
      check_number field isRequired type value;
      check_length field value;
      check_pattern field value ]
    ok.

(** [validateField(field, errorEl)] *)
Definition validateField (field : Element) (errorEl : JsValue) : Verdict :=
  let type := typeAttr field in
  let value := trim (value field) in
  let isRequired := isRequired field errorEl in
  if streq type "checkbox" || streq type "radio" then
    if negb isRequired then ok
    else
      let checked := checked field in
      mkVerdict checked (if checked then None else Some "required")
  else if isEmpty value && negb isRequired then ok
  else if isRequired && isEmpty value then failed "required"
  else typeChecks field isRequired type value.

End ValidateField.

(** What [setupForm] keeps for the listeners: the error map and the fields. *)
Record FormController : Type := mkController {
  errorMap : gmap string nat;
  fields : list nat;
}.

Section Controller.
Context `{Platform}.

(** [key ? errorMap[key] : null] *)
Definition lookupErrorEl (errorMap : gmap string nat) (field : Element) : JsValue :=
  let key := getFieldKey field in
  if isEmpty key then VNull else JsObject.get errorMap key.

Definition isInteraction (context : string) : bool :=
  streq context "input" || streq context "blur" || streq context "change".

(** The value of [hasErrorToShow] when [handleField] reaches
    [setFieldErrorState]. *)
Definition hasErrorToShow (field : Element) (context : string)
    (result : Verdict) : bool :=
  let shown := negb (valid result) in
  let shown :=
    if isCheckable field && negb (streq context "submit") then false
    else shown in
  if isInteraction context then
    let currentValue := trim (value field) in
    if isEmpty currentValue then false else shown
  else shown.

(** [handleField(field, context)] *)
Definition handleField (ctl : FormController) (field : nat) (context : string)
  : M bool :=
  let context := if isEmpty context then "other" else context in
  el ← gets (fun w => getElement w field);
  let errorEl := lookupErrorEl (errorMap ctl) el in
  let result := validateField el errorEl in
  setFieldErrorState field errorEl (hasErrorToShow el context result)
    (reason result);;
  mret (valid result).

(** [field.type === 'submit' || field.type === 'button'] *)
Definition isButton (field : Element) : bool :=
  streq (type field) "submit" || streq (type field) "button".

(** The loop of [validateForm]; [allValid] is its variable. *)
Fixpoint validateForm_loop (ctl : FormController) (fs : list nat)
    (allValid : bool) : M bool :=
  match fs with
  | [] => mret allValid
  | field :: rest =>
      button ← gets (fun w => isButton (getElement w field));
      if (button : bool) then validateForm_loop ctl rest allValid
      else
        v ← handleField ctl field "submit";
        validateForm_loop ctl rest (if negb v then false else allValid)
  end.

(** [validateForm()] *)
Definition validateForm (ctl : FormController) : M bool :=
  validateForm_loop ctl (fields ctl) true.

(** The listener of the form's submit event. *)
Definition onSubmit (ctl : FormController) : M unit :=
  isValid ← validateForm ctl;
  if negb isValid then
    preventDefault;;
    stopPropagation;;
    firstInvalid ← gets (fun w =>
      List.find (fun f => classList_contains (getElement w f) "is-invalid")
        (fields ctl));
    match firstInvalid with
    | Some f => focus f
    | None => mret tt
    end
  else mret tt.

(** The listener of a field's input event: live feedback for text-like
    inputs and text areas only. *)
Definition onInput (ctl : FormController) (field : nat) : M unit :=
  el ← gets (fun w => getElement w field);
  let type := typeAttr el in
  let tag := localName el in
  if (streq tag "input" &&
        (streq type "text" || streq type "email" || streq type "tel" ||
         streq type "url" || streq type "password" || streq type "" ||
         streq type "search"))
     || streq tag "textarea"
  then handleField ctl field "input";; mret tt
  else mret tt.

Definition isField (e : Element) : bool :=
  streq (localName e) "input" || streq (localName e) "textarea" ||
  streq (localName e) "select".

(** [setupForm(form)] up to the registration of the listeners (the
    [novalidate] attribute goes on the form element itself, which is not
    one of its descendants). *)
Definition setupForm : M FormController :=
  errorMap ← buildErrorMap;
  fields ← gets (querySelectorAll isField);
  mret (mkController errorMap fields).

End Controller.

(** ** A reference platform and page builders for concrete runs

    [Sample.platform] stands for the browser on the inputs used in the
    examples only: [Number] on decimal integer literals, and [new RegExp] on
    the patterns listed in [compile] (for which [test] is a search for a
    match anywhere in the value, as the expressions carry no anchor unless
    written).  The general theorems hold for every [Platform]. *)

Module Sample.

Fixpoint digitsValue (s : string) (acc : Z) : option Z :=
  match s with
  | EmptyString => Some acc
  | String c s' =>
      if isDigit c then digitsValue s' (10 * acc + Z.of_N (code c - 48))
      else None
  end.

Definition parseInteger (s : string) : option Z :=
  match trim s with
  | EmptyString => Some 0%Z
  | String "-" s' => if isEmpty s' then None else Z.opp <$> digitsValue s' 0
  | s' => digitsValue s' 0
  end.

(** [/[0-9]/], [/^(?:[0-9])$/] and [/^[0-9]+$/]; any other pattern stands
    for one that does not compile, as ["("]. *)
Definition compile (p : string) : option (string -> bool) :=
  if streq p "[0-9]" then
    Some (Regex.test (Cat (Star Any) (Cat (Cls isDigit) (Star Any))))
  else if streq p "^(?:[0-9])$" then Some (Regex.test (Cls isDigit))
  else if streq p "^[0-9]+$" then Some (Regex.test (Plus (Cls isDigit)))
  else None.

Definition platform : Platform := {|
  JSNumber := option Z;
  Number := parseInteger;
  Number_isNaN := fun n => match n with None => true | Some _ => false end;
  Number_lt := fun a b =>
    match a, b with
    | Some x, Some y => (x <? y)%Z
    | _, _ => false
    end;
  Number_of_length := fun n => Some (Z.of_nat n);
  RegExp := compile;
|}.

Definition attrs (l : list (string * string)) : gmap string string :=
  list_to_map l.

(** [<input type=ty ...attributes a... value=v>] *)
Definition input (ty : string) (a : list (string * string)) (v : string)
  : Element :=
  mkElement "INPUT" ty (attrs (("type", ty) :: a)) v false ∅ "".

(** [<div data-error-text=key class=cls>txt</div>] *)
Definition slot (key txt : string) (cls : list string) : Element :=
  mkElement "DIV" "" (attrs [("data-error-text", key)]) "" false
    (list_to_set cls) txt.

Definition page (els : list Element) : World := mkWorld els false false None.

End Sample.

(** ** Vocabulary of the statements

    What the theorems below speak of: the shape of an e-mail address, the
    page after each kind of presentation, what one callback of
    [buildErrorMap] does, what validation reads and what presentation
    leaves alone, and the pages of the concrete runs. *)

Fixpoint contains (c : ascii) (s : string) : bool :=
  match s with
  | EmptyString => false
  | String d s' => Ascii.eqb d c || contains c s'
  end.

(** The language of [emailPattern]: [local@domain.tld] with the three parts
    not empty and free of white space and of [@]. *)
Definition emailShape (s : string) : Prop :=
  exists l d t : string,
    s = l +:+ "@" +:+ d +:+ "." +:+ t /\
    l <> "" /\ d <> "" /\ t <> "" /\
    sforall notSpaceAt l = true /\
    sforall notSpaceAt d = true /\
    sforall notSpaceAt t = true.



(** The capture step of [setFieldErrorState]: the default message is written
    when [dataset.defaultMessage] is falsy, that is absent or empty. *)
Definition capture (s : nat) (w : World) : World :=
  if isEmpty (or_empty (dataset_defaultMessage (getElement w s)))
  then updateWorld s
         (with_attribute "data-default-message" (textContent (getElement w s))) w
  else w.

(** The page after [setFieldErrorState(field, errorEl, false, reason)] for an
    error element [s]. *)
Definition cleared (field s : nat) (w : World) : World :=
  let w1 := capture s w in
  let w2 := updateWorld field (with_classList (fun c => c ∖ {["is-invalid"]})) w1 in
  let w3 := updateWorld s (with_classList (fun c => c ∖ {["is-visible"]})) w2 in
  updateWorld s
    (with_textContent (or_empty (dataset_defaultMessage (getElement w3 s)))) w3.

(** The page after [setFieldErrorState(field, errorEl, true, reason)] for an
    error element [s]. *)
Definition shown (field s : nat) (reason : option string) (w : World) : World :=
  let w1 := capture s w in
  let w2 := updateWorld field (with_classList (fun c => c ∪ {["is-invalid"]})) w1 in
  let w3 := updateWorld s (with_classList (fun c => c ∪ {["is-visible"]})) w2 in
  let default := or_empty (dataset_defaultMessage (getElement w3 s)) in
  let msg :=
    match reason, getAttribute (getElement w3 field) "data-second-error" with
    | Some r, Some override => if streq r "format" then override else default
    | _, _ => default
    end in
  updateWorld s (with_textContent msg) w3.

(** The user edits a field. *)
Definition with_value (v : string) (e : Element) : Element :=
  mkElement (tagName e) (type e) (attributes e) v (checked e) (classList e)
    (textContent e).

(** The normalized key of the element at position [el]. *)
Definition slotKey (w : World) (el : nat) : string :=
  normalizeKey (getAttribute (getElement w el) "data-error-text").

(** What one callback does to the map. *)
Definition register (map : gmap string nat) (key : string) (el : nat)
  : gmap string nat :=
  if isEmpty key then map
  else if negb (truthy (JsObject.get map key)) then JsObject.set map key el
  else map.

(** What one callback does to the page. *)
Definition hide (w : World) (el : nat) : World :=
  if isEmpty (slotKey w el) then w
  else updateWorld el (with_classList (fun c => c ∖ {["is-visible"]})) w.

(** The first element of [els] whose key is [k]. *)
Definition firstSlot (w : World) (els : list nat) (k : string) : option nat :=
  List.find (fun el => streq (slotKey w el) k) els.

(** Two states of an element that differ at most in the classes, the text
    and the stored default message: all that [setFieldErrorState] writes. *)
Definition inputs_eq (e e' : Element) : Prop :=
  tagName e = tagName e' /\ type e = type e' /\ value e = value e' /\
  checked e = checked e' /\
  forall n, n <> "data-default-message" -> attributes e !! n = attributes e' !! n.

Definition marked (w : World) (j : nat) : bool :=
  classList_contains (getElement w j) "is-invalid".

(** [w'] is [w] after a presentation for [field] with [hasError]. *)
Record presented (field : nat) (hasError : bool) (w w' : World) : Prop := {
  presented_length : length (elements w') = length (elements w);
  presented_event :
    defaultPrevented w' = defaultPrevented w /\
    propagationStopped w' = propagationStopped w /\
    focused w' = focused w;
  presented_inputs : forall j, inputs_eq (getElement w j) (getElement w' j);
  presented_others : forall j, j <> field -> marked w' j = marked w j;
  presented_field : field < length (elements w) -> marked w' field = hasError;
}.

Section Vocabulary.
Context `{Platform}.

(** The verdict [handleField] computes for the field at position [f]. *)
Definition verdictOf (ctl : FormController) (w : World) (f : nat) : Verdict :=
  validateField (getElement w f) (lookupErrorEl (errorMap ctl) (getElement w f)).

(** A field lets the submit through: a button, or a valid verdict. *)
Definition passes (ctl : FormController) (w : World) (f : nat) : bool :=
  isButton (getElement w f) || valid (verdictOf ctl w f).

(** [w'] is [w] after [validateForm] went over the fields [fs]. *)
Record validated (ctl : FormController) (fs : list nat) (w w' : World) : Prop := {
  validated_length : length (elements w') = length (elements w);
  validated_event :
    defaultPrevented w' = defaultPrevented w /\
    propagationStopped w' = propagationStopped w /\
    focused w' = focused w;
  validated_inputs : forall j, inputs_eq (getElement w j) (getElement w' j);
  validated_others : forall j, ~ In j fs -> marked w' j = marked w j;
  validated_fields : forall f, In f fs ->
    marked w' f =
      if isButton (getElement w f) then marked w f
      else negb (valid (verdictOf ctl w f));
}.

End Vocabulary.

(** An e-mail field with a second message, and its error element, whose own
    text is empty. *)
Definition empty_default_page : World :=
  Sample.page
    [ Sample.input "email"
        [("name", "email"); ("data-second-error", "Please enter a valid e-mail")]
        "joe@";
      Sample.slot "email" "" [] ].

(** Two visible messages: one keyed, one with an attribute that normalizes
    to the empty key. *)
Definition visible_slots_page : World :=
  Sample.page
    [ Sample.slot "E-mail" "Required" ["is-visible"];
      Sample.slot "--" "Required" ["is-visible"] ].

(** Two elements whose keys both normalize to [constructor], two whose keys
    both normalize to [email]. *)
Definition constructor_slots_page : World :=
  Sample.page
    [ Sample.slot "Constructor" "Required" [];
      Sample.slot "constructor" "Required" [];
      Sample.slot "E-mail" "Required" [];
      Sample.slot "email" "Required" [] ].

(** A form whose first field is named [constructor]; the second is required
    and empty. *)
Definition constructor_field_page : World :=
  Sample.page
    [ Sample.input "text" [("name", "constructor")] "abc";
      Sample.input "text" [("name", "city"); ("required", "")] "" ].

(** ** Vocabulary of the further properties *)

Fixpoint sexists (p : ascii -> bool) (s : string) : bool :=
  match s with
  | EmptyString => false
  | String c s' => p c || sexists p s'
  end.

(** [[0-9+]] *)
Definition isDigitOrPlus (c : ascii) : bool := isDigit c || Ascii.eqb c "+".

(** What [phonePattern] accepts: digits and plus signs only, one digit at
    least. *)
Definition isPhone (v : string) : bool :=
  sforall isDigitOrPlus v && sexists isDigit v.

(** [[^\s.]] and [[^\s]] *)
Definition notSpaceDot (c : ascii) : bool :=
  negb (isWhiteSpace c || Ascii.eqb c ".").
Definition notSpace (c : ascii) : bool := negb (isWhiteSpace c).

(** What [urlPattern] accepts: a run free of white space and dots that is
    not empty, a dot, and two characters or more free of white space. *)
Definition urlShape (v : string) : Prop :=
  exists a b : string,
    v = a +:+ "." +:+ b /\
    a <> "" /\ sforall notSpaceDot a = true /\
    2 <= String.length b /\ sforall notSpace b = true.

(** Every character class of [r] lies within [q]. *)
Fixpoint within (q : ascii -> bool) (r : regex) : Prop :=
  match r with
  | Void | Eps => True
  | Cls p => forall c, p c = true -> q c = true
  | Cat r s | Alt r s | And r s => within q r /\ within q s
  | Star r => within q r
  end.

(** No length or pattern attribute is declared. *)
Definition unconstrained (f : Element) : Prop :=
  getAttribute f "minlength" = None /\ getAttribute f "maxlength" = None /\
  getAttribute f "pattern" = None.

(** The default message a presentation works with: the stored one, or the
    slot's text when none is stored or the stored one is empty. *)
Definition capturedDefault (w : World) (s : nat) : string :=
  if isEmpty (or_empty (dataset_defaultMessage (getElement w s)))
  then textContent (getElement w s)
  else or_empty (dataset_defaultMessage (getElement w s)).

(** The message [setFieldErrorState] puts into the slot when it shows an
    error. *)
Definition shownMessage (w : World) (field s : nat) (reason : option string)
  : string :=
  match reason, getAttribute (getElement w field) "data-second-error" with
  | Some r, Some override =>
      if streq r "format" then override else capturedDefault w s
  | _, _ => capturedDefault w s
  end.

(** Two states of an element that differ at most in whether the class
    [is-visible] is present. *)
Definition visibility_apart (e e' : Element) : Prop :=
  tagName e' = tagName e /\ type e' = type e /\
  attributes e' = attributes e /\ value e' = value e /\
  checked e' = checked e /\ textContent e' = textContent e /\
  forall cls, cls <> "is-visible" ->
    classList_contains e' cls = classList_contains e cls.

(** The error element a field is matched with, read off the page: none for
    an empty key, the inherited built-in for [constructor], else the first
    element of the form whose [data-error-text] normalizes to the field's
    key. *)
Definition matchedSlot (w : World) (field : Element) : JsValue :=
  let k := getFieldKey field in
  if isEmpty k then VNull
  else if streq k "constructor" then VBuiltin "constructor"
  else
    match
      firstSlot w (querySelectorAll (fun e => hasAttribute e "data-error-text") w) k
    with
    | Some s => VElement s
    | None => VUndefined
    end.

(** Two radios of one group, both with the [required] attribute, the first
    one checked. *)
Definition radio_group_page : World :=
  Sample.page
    [ mkElement "INPUT" "radio"
        (Sample.attrs [("type", "radio"); ("name", "plan"); ("required", "")])
        "basic" true ∅ "";
      mkElement "INPUT" "radio"
        (Sample.attrs [("type", "radio"); ("name", "plan"); ("required", "")])
        "pro" false ∅ "" ].

(** A form of one field, empty, and its error element. *)
Definition required_field_page : World :=
  Sample.page
    [ Sample.input "text" [("name", "City")] "";
      Sample.slot "city" "This field is required" [] ].

(** The mark [validateForm] leaves on a field: the verdict's for a field it
    validates, the one the page had for a button. *)
Definition leftMarked `{Platform} (ctl : FormController) (w : World) (f : nat) : bool :=
  if isButton (getElement w f) then marked w f
  else negb (valid (verdictOf ctl w f)).

(** * Properties *)

(** ** The derivative matcher decides the language *)

Module RegexFacts.

Lemma nullable_Matches r : nullable r = true <-> Matches r [].
Proof.
  split.
  - induction r; simpl; intros Hn; try discriminate.
    + constructor.
    + apply andb_true_iff in Hn as [H1 H2].
      change (@nil ascii) with (@nil ascii ++ []). constructor; auto.
    + apply orb_true_iff in Hn as [H1 | H1]; [apply MAltL | apply MAltR]; auto.
    + apply andb_true_iff in Hn as [H1 H2]. constructor; auto.
    + constructor.
  - induction r; simpl; intros Hm; inversion Hm; subst; auto.
    + match goal with E : _ ++ _ = [] |- _ => apply app_eq_nil in E as [-> ->] end.
      rewrite IHr1, IHr2; auto.
    + rewrite IHr1; auto.
    + rewrite IHr2; auto using orb_true_r.
    + rewrite IHr1, IHr2; auto.
Qed.

Lemma Matches_Star_cons r c w :
  Matches (Star r) (c :: w) ->
  exists u v, w = u ++ v /\ Matches r (c :: u) /\ Matches (Star r) v.
Proof.
  intros Hm. remember (Star r) as sr eqn:Er. remember (c :: w) as cw eqn:Ew.
  revert c w Ew. induction Hm; intros c0 w0 Ew; try discriminate.
  injection Er as ->.
  destruct u as [|a u'].
  - simpl in Ew. apply IHHm2; auto.
  - simpl in Ew. injection Ew as <- <-. exists u', v. auto.
Qed.

Lemma deriv_sound c r : forall w, Matches (deriv c r) w -> Matches r (c :: w).
Proof.
  induction r; simpl; intros w Hm.
  - inversion Hm.
  - inversion Hm.
  - destruct (p c) eqn:Ep; inversion Hm; subst. constructor; auto.
  - assert (Hcat : forall w', Matches (Cat (deriv c r1) r2) w' ->
                              Matches (Cat r1 r2) (c :: w')).
    { intros w' Hc. inversion Hc; subst.
      change (c :: u ++ v) with ((c :: u) ++ v). constructor; auto. }
    destruct (nullable r1) eqn:En; [|auto].
    inversion Hm; subst; [auto|].
    change (c :: w) with ([] ++ c :: w). constructor; auto.
    apply nullable_Matches; auto.
  - inversion Hm; subst; [apply MAltL | apply MAltR]; auto.
  - inversion Hm; subst. constructor; auto.
  - inversion Hm; subst.
    change (c :: u ++ v) with ((c :: u) ++ v). constructor; auto.
Qed.

Lemma deriv_complete c r : forall w, Matches r (c :: w) -> Matches (deriv c r) w.
Proof.
  induction r; simpl; intros w Hm.
  - inversion Hm.
  - inversion Hm.
  - inversion Hm; subst.
    match goal with E : p c = true |- _ => rewrite E end. constructor.
  - inversion Hm; subst. destruct u as [|a u'].
    + match goal with E : [] ++ _ = _ |- _ => simpl in E; subst end.
      match goal with E : Matches r1 [] |- _ =>
        apply nullable_Matches in E; rewrite E end.
      apply MAltR; auto.
    + match goal with E : (_ :: _) ++ _ = _ |- _ =>
        simpl in E; injection E as -> <- end.
      destruct (nullable r1); [apply MAltL|]; constructor; auto.
  - inversion Hm; subst; [apply MAltL | apply MAltR]; auto.
  - inversion Hm; subst. constructor; auto.
  - apply Matches_Star_cons in Hm as (u & v & -> & Hu & Hv).
    constructor; auto.
Qed.

Lemma matchesb_Matches r w : matchesb r w = true <-> Matches r w.
Proof.
  revert r. induction w as [|c w IH]; intros r; simpl.
  - apply nullable_Matches.
  - rewrite IH. split; [apply deriv_sound | apply deriv_complete].
Qed.

Lemma Matches_Star_Cls p w : Matches (Star (Cls p)) w <-> forallb p w = true.
Proof.
  split.
  - induction w as [|c w IH]; intros Hm; [reflexivity|].
    apply Matches_Star_cons in Hm as (u & v & -> & Hu & Hv).
    inversion Hu; subst. simpl in *.
    match goal with E : p c = true |- _ => rewrite E end. auto.
  - induction w as [|c w IH]; simpl; intros Hf; [constructor|].
    apply andb_true_iff in Hf as [Hc Hw].
    change (c :: w) with ([c] ++ w). constructor; [constructor|]; auto.
Qed.

Lemma Matches_Plus_Cls p w :
  Matches (Plus (Cls p)) w <-> w <> [] /\ forallb p w = true.
Proof.
  unfold Plus. split.
  - intros Hm. inversion Hm; subst.
    match goal with E : Matches (Cls p) _ |- _ => inversion E; subst end.
    match goal with E : Matches (Star _) _ |- _ =>
      apply Matches_Star_Cls in E end.
    simpl. split; [discriminate|]. apply andb_true_iff; auto.
  - intros [Hne Hf]. destruct w as [|c w]; [congruence|].
    simpl in Hf. apply andb_true_iff in Hf as [Hc Hw].
    change (c :: w) with ([c] ++ w). constructor; [constructor; auto|].
    apply Matches_Star_Cls; auto.
Qed.

Lemma Matches_Chr c w : Matches (Chr c) w <-> w = [c].
Proof.
  unfold Chr. split.
  - intros Hm. inversion Hm; subst.
    match goal with E : Ascii.eqb _ _ = true |- _ =>
      apply Ascii.eqb_eq in E; subst end. reflexivity.
  - intros ->. constructor. apply Ascii.eqb_refl.
Qed.

Lemma Matches_Cat r s w :
  Matches (Cat r s) w <-> exists u v, w = u ++ v /\ Matches r u /\ Matches s v.
Proof.
  split.
  - intros Hm. inversion Hm; subst. eauto.
  - intros (u & v & -> & Hu & Hv). constructor; auto.
Qed.

End RegexFacts.

(** ** Strings *)

Module StringFacts.

Ltac each_char c := destruct c as [[] [] [] [] [] [] [] []].

Lemma toLowerChar_isKeyChar c : isKeyChar c = true -> toLowerChar c = c.
Proof. each_char c; vm_compute; congruence. Qed.

Lemma toLowerChar_idem c : toLowerChar (toLowerChar c) = toLowerChar c.
Proof. each_char c; reflexivity. Qed.

Lemma isKeyChar_toLowerChar c :
  isKeyChar (toLowerChar c) = isKeyChar c || isUpperAZ c.
Proof. each_char c; reflexivity. Qed.

Lemma append_cons c a b : String c a +:+ b = String c (a +:+ b).
Proof. reflexivity. Qed.

Lemma append_nil_l b : "" +:+ b = b.
Proof. reflexivity. Qed.

Lemma smap_append f a b : smap f (a +:+ b) = smap f a +:+ smap f b.
Proof.
  induction a as [|c a IH]; [reflexivity|].
  rewrite append_cons. simpl. rewrite IH. reflexivity.
Qed.

Lemma sfilter_append p a b : sfilter p (a +:+ b) = sfilter p a +:+ sfilter p b.
Proof.
  induction a as [|c a IH]; [reflexivity|].
  rewrite append_cons. simpl. destruct (p c); rewrite IH; reflexivity.
Qed.

Lemma sforall_sfilter p s : sforall p (sfilter p s) = true.
Proof.
  induction s as [|c s IH]; [reflexivity|].
  simpl. destruct (p c) eqn:E; [|exact IH]. simpl. rewrite E. exact IH.
Qed.

Lemma sfilter_sforall p s : sforall p s = true -> sfilter p s = s.
Proof.
  induction s as [|c s IH]; [reflexivity|].
  simpl. intros Hs. apply andb_true_iff in Hs as [Hc Hs].
  rewrite Hc, IH; auto.
Qed.

Lemma toLowerCase_sforall_isKeyChar s :
  sforall isKeyChar s = true -> toLowerCase s = s.
Proof.
  induction s as [|c s IH]; [reflexivity|].
  simpl. intros Hs. apply andb_true_iff in Hs as [Hc Hs].
  change (toLowerCase (String c s)) with (String (toLowerChar c) (toLowerCase s)).
  rewrite toLowerChar_isKeyChar, IH; auto.
Qed.

Lemma toLowerCase_idem s : toLowerCase (toLowerCase s) = toLowerCase s.
Proof.
  induction s as [|c s IH]; [reflexivity|].
  change (toLowerCase (String c s)) with (String (toLowerChar c) (toLowerCase s)).
  change (toLowerCase (String (toLowerChar c) (toLowerCase s)))
    with (String (toLowerChar (toLowerChar c)) (toLowerCase (toLowerCase s))).
  rewrite toLowerChar_idem, IH. reflexivity.
Qed.

Lemma isEmpty_true s : isEmpty s = true <-> s = "".
Proof. destruct s; simpl; split; congruence. Qed.

Lemma isEmpty_false s : isEmpty s = false <-> s <> "".
Proof. destruct s; simpl; split; congruence. Qed.

Lemma streq_true a b : streq a b = true <-> a = b.
Proof. apply String.eqb_eq. Qed.

Lemma streq_false a b : streq a b = false <-> a <> b.
Proof. apply String.eqb_neq. Qed.

End StringFacts.

Import StringFacts.

(** ** Key normalizer *)

Lemma normalizeKey_key_chars x : sforall isKeyChar (normalizeKey x) = true.
Proof. apply sforall_sfilter. Qed.

(** C4: [normalizeKey] is idempotent; its result holds only characters of
    [a-z0-9]; character by character it lower-cases and keeps exactly the
    letters and digits, so it is blind to case and to separators; the three
    spellings of the script's comment all give "lastname"; [null] and the
    empty string give the empty string. *)
Theorem normalizeKey_idempotent_insensitive :
  (forall x, normalizeKey (Some (normalizeKey x)) = normalizeKey x) /\
  (forall x, sforall isKeyChar (normalizeKey x) = true) /\
  (forall c x,
     normalizeKey (Some (String c x)) =
       if isKeyChar c || isUpperAZ c
       then String (toLowerChar c) (normalizeKey (Some x))
       else normalizeKey (Some x)) /\
  (forall a b,
     normalizeKey (Some (a +:+ b)) = normalizeKey (Some a) +:+ normalizeKey (Some b)) /\
  (forall x, normalizeKey (Some (toLowerCase x)) = normalizeKey (Some x)) /\
  normalizeKey (Some "Last-Name") = "lastname" /\
  normalizeKey (Some "last_name") = "lastname" /\
  normalizeKey (Some "LAST NAME") = "lastname" /\
  normalizeKey None = "" /\
  normalizeKey (Some "") = "".
Proof.
  split; [|split; [|split; [|split; [|split]]]].
  - intros x. unfold normalizeKey at 1. simpl or_empty.
    rewrite toLowerCase_sforall_isKeyChar by apply normalizeKey_key_chars.
    apply sfilter_sforall, normalizeKey_key_chars.
  - apply normalizeKey_key_chars.
  - intros c x. unfold normalizeKey. simpl.
    rewrite isKeyChar_toLowerChar. reflexivity.
  - intros a b. unfold normalizeKey, toLowerCase. simpl.
    rewrite smap_append. apply sfilter_append.
  - intros x. unfold normalizeKey. simpl. rewrite toLowerCase_idem. reflexivity.
  - repeat split; reflexivity.
Qed.

(** ** Field validator *)

Section ValidateFieldFacts.
Context `{Platform}.

Lemma check_tel_cases t v :
  check_tel t v = None \/ check_tel t v = Some (failed "format").
Proof. unfold check_tel. repeat case_match; auto. Qed.

Lemma check_email_cases f t v :
  check_email f t v = None \/ check_email f t v = Some (failed "format").
Proof. unfold check_email. repeat case_match; auto. Qed.

Lemma check_url_cases t v :
  check_url t v = None \/ check_url t v = Some (failed "format").
Proof. unfold check_url. repeat case_match; auto. Qed.

Lemma check_number_cases f r t v :
  v <> "" ->
  check_number f r t v = None \/ check_number f r t v = Some (failed "format").
Proof.
  intros Hv. unfold check_number.
  destruct (streq t "number"); auto.
  destruct (streq v "") eqn:E; [apply streq_true in E; contradiction|].
  repeat case_match; auto.
Qed.

Lemma check_length_cases f v :
  check_length f v = None \/ check_length f v = Some (failed "format").
Proof. unfold check_length. repeat case_match; auto. Qed.

Lemma check_pattern_cases f v :
  check_pattern f v = None \/ check_pattern f v = Some (failed "format").
Proof. unfold check_pattern. repeat case_match; auto. Qed.

Lemma validateField_generic_nonempty f e :
  isCheckable f = false -> trim (value f) <> "" ->
  validateField f e =
    typeChecks f (isRequired f e) (typeAttr f) (trim (value f)).
Proof.
  intros Hc Hv. unfold validateField.
  unfold isCheckable in Hc. rewrite Hc.
  apply isEmpty_false in Hv. rewrite Hv.
  rewrite andb_false_l, andb_false_r. reflexivity.
Qed.

Lemma typeChecks_cases f e :
  trim (value f) <> "" ->
  typeChecks f (isRequired f e) (typeAttr f) (trim (value f)) = ok \/
  typeChecks f (isRequired f e) (typeAttr f) (trim (value f)) = failed "format".
Proof.
  intros Hv. unfold typeChecks. simpl.
  destruct (check_tel_cases (typeAttr f) (trim (value f))) as [-> | ->]; auto.
  destruct (check_email_cases f (typeAttr f) (trim (value f))) as [-> | ->]; auto.
  destruct (check_url_cases (typeAttr f) (trim (value f))) as [-> | ->]; auto.
  destruct (check_number_cases f (isRequired f e) (typeAttr f) _ Hv)
    as [-> | ->]; auto.
  destruct (check_length_cases f (trim (value f))) as [-> | ->]; auto.
  destruct (check_pattern_cases f (trim (value f))) as [-> | ->]; auto.
Qed.

Lemma validateField_checkable f e :
  isCheckable f = true ->
  validateField f e =
    if isRequired f e
    then mkVerdict (checked f) (if checked f then None else Some "required")
    else ok.
Proof.
  intros Hc. unfold validateField. unfold isCheckable in Hc. rewrite Hc.
  destruct (isRequired f e); reflexivity.
Qed.

Lemma validateField_generic_empty f e :
  isCheckable f = false -> trim (value f) = "" ->
  validateField f e = if isRequired f e then failed "required" else ok.
Proof.
  intros Hc Hv. unfold validateField. unfold isCheckable in Hc.
  rewrite Hc, Hv. destruct (isRequired f e); reflexivity.
Qed.

Lemma validateField_cases f e :
  validateField f e = ok \/
  validateField f e = failed "required" \/
  validateField f e = failed "format".
Proof.
  destruct (isCheckable f) eqn:Hc.
  - rewrite validateField_checkable by assumption.
    destruct (isRequired f e), (checked f); auto.
  - destruct (decide (trim (value f) = "")) as [Hv | Hv].
    + rewrite validateField_generic_empty by assumption.
      destruct (isRequired f e); auto.
    + rewrite validateField_generic_nonempty by assumption.
      destruct (typeChecks_cases f e Hv) as [-> | ->]; auto.
Qed.

End ValidateFieldFacts.

(** C10: every verdict of [validateField] is one of [{valid: true, reason:
    null}], [{valid: false, reason: 'required'}] and [{valid: false, reason:
    'format'}]; so [valid] is true exactly when [reason] is [null]. *)
Theorem validateField_verdict_shape `{Platform} (f : Element) (e : JsValue) :
  (validateField f e = mkVerdict true None \/
   validateField f e = mkVerdict false (Some "required") \/
   validateField f e = mkVerdict false (Some "format")) /\
  (valid (validateField f e) = true <-> reason (validateField f e) = None).
Proof.
  pose proof (validateField_cases f e) as Hc. split; [exact Hc|].
  destruct Hc as [-> | [-> | ->]]; simpl; split; congruence.
Qed.

(** C1: [validateField] takes a field as required exactly when it has the
    [required] attribute or an error element was handed in; a generic field
    (neither checkbox nor radio) whose trimmed value is empty gets
    [{valid: false, reason: 'required'}] when required and a valid verdict
    when not, and an unchecked checkbox or radio likewise. *)
Theorem validateField_required `{Platform} (f : Element) (e : JsValue) :
  (isRequired f e = true <-> hasAttribute f "required" = true \/ truthy e = true) /\
  (isCheckable f = false -> trim (value f) = "" ->
     (isRequired f e = true -> validateField f e = mkVerdict false (Some "required")) /\
     (isRequired f e = false -> validateField f e = mkVerdict true None)) /\
  (isCheckable f = true -> checked f = false ->
     (isRequired f e = true -> validateField f e = mkVerdict false (Some "required")) /\
     (isRequired f e = false -> validateField f e = mkVerdict true None)).
Proof.
  split; [|split].
  - unfold isRequired. apply orb_true_iff.
  - intros Hc Hv. rewrite validateField_generic_empty by assumption.
    split; intros ->; reflexivity.
  - intros Hc Hk. rewrite validateField_checkable by assumption. rewrite Hk.
    split; intros ->; reflexivity.
Qed.

(** An input of type text holding only blanks, with an error element and no
    [required] attribute: required, hence [{valid: false, reason:
    'required'}]. *)
Lemma validateField_required_witness :
  @validateField Sample.platform (Sample.input "text" [("name", "city")] "   ")
    (VElement 1) = mkVerdict false (Some "required").
Proof.
  refine (proj1 (proj1 (proj2 (@validateField_required Sample.platform
    (Sample.input "text" [("name", "city")] "   ") (VElement 1))) _ _) _);
    reflexivity.
Defined.

(** ** The e-mail check *)

Module EmailFacts.

Import RegexFacts.

Lemma chars_append a b :
  String.list_ascii_of_string (a +:+ b) =
    String.list_ascii_of_string a ++ String.list_ascii_of_string b.
Proof.
  induction a as [|c a IH]; [reflexivity|].
  rewrite append_cons. simpl. rewrite IH. reflexivity.
Qed.

Lemma forallb_chars p s :
  forallb p (String.list_ascii_of_string s) = sforall p s.
Proof. induction s as [|c s IH]; [reflexivity|]. simpl. rewrite IH. reflexivity. Qed.

Lemma of_chars_nonempty l : l <> [] -> String.string_of_list_ascii l <> "".
Proof. destruct l; simpl; congruence. Qed.

Lemma chars_nonempty s : s <> "" -> String.list_ascii_of_string s <> [].
Proof. destruct s; simpl; congruence. Qed.

Lemma emailPattern_shape s : Regex.test emailPattern s = true <-> emailShape s.
Proof.
  unfold Regex.test, emailPattern, emailShape.
  rewrite matchesb_Matches. split.
  - intros Hm.
    apply Matches_Cat in Hm as (l & r1 & E1 & Hl & Hm).
    apply Matches_Cat in Hm as (a & r2 & E2 & Ha & Hm).
    apply Matches_Cat in Hm as (d & r3 & E3 & Hd & Hm).
    apply Matches_Cat in Hm as (o & t & E4 & Ho & Ht).
    apply Matches_Chr in Ha, Ho. subst a o r3 r2 r1.
    apply Matches_Plus_Cls in Hl as [Nl Fl], Hd as [Nd Fd], Ht as [Nt Ft].
    exists (String.string_of_list_ascii l), (String.string_of_list_ascii d),
      (String.string_of_list_ascii t).
    split.
    + rewrite <- (String.string_of_list_ascii_of_string s), E1.
      clear. induction l as [|c l IH]; simpl.
      * rewrite append_nil_l. f_equal.
        induction d as [|c d IH]; simpl; [reflexivity|].
        rewrite append_cons. f_equal. exact IH.
      * rewrite append_cons. f_equal. exact IH.
    + repeat split; auto using of_chars_nonempty;
        rewrite <- forallb_chars, String.list_ascii_of_string_of_list_ascii;
        assumption.
  - intros (l & d & t & -> & Nl & Nd & Nt & Fl & Fd & Ft).
    rewrite !chars_append. simpl.
    constructor; [apply Matches_Plus_Cls; rewrite forallb_chars;
                  auto using chars_nonempty|].
    change (?x :: ?r) with ([x] ++ r) at 1.
    constructor; [apply Matches_Chr; reflexivity|].
    constructor; [apply Matches_Plus_Cls; rewrite forallb_chars;
                  auto using chars_nonempty|].
    change (?x :: ?r) with ([x] ++ r) at 1.
    constructor; [apply Matches_Chr; reflexivity|].
    apply Matches_Plus_Cls; rewrite forallb_chars; auto using chars_nonempty.
Qed.

Lemma contains_append c a b : contains c (a +:+ b) = contains c a || contains c b.
Proof.
  induction a as [|d a IH]; [reflexivity|].
  rewrite append_cons. simpl. rewrite IH. apply orb_assoc.
Qed.

Lemma emailShape_contains_at s : emailShape s -> contains "@" s = true.
Proof.
  intros (l & d & t & -> & _). rewrite contains_append.
  apply orb_true_iff. right. reflexivity.
Qed.

Lemma lastIndexOf_from_absent c s : forall j f,
  contains c s = false -> lastIndexOf_from c s j f = f.
Proof.
  induction s as [|d s IH]; simpl; intros j f Hn; [reflexivity|].
  apply orb_false_iff in Hn as [-> Hn]. apply IH; assumption.
Qed.

Lemma lastIndexOf_from_found c s : forall i found,
  (found < i)%Z -> contains c s = true -> (i <= lastIndexOf_from c s i found)%Z.
Proof.
  induction s as [|d s IH]; simpl; intros i found Hlt Hc; [discriminate|].
  destruct (contains c s) eqn:Ec.
  - apply Z.le_trans with (i + 1)%Z; [lia|].
    apply IH; [destruct (Ascii.eqb d c); lia | reflexivity].
  - rewrite orb_false_r in Hc. rewrite Hc.
    rewrite lastIndexOf_from_absent by assumption. lia.
Qed.

Lemma lastIndexOf_contains c s : contains c s = true -> lastIndexOf s c <> (-1)%Z.
Proof.
  intros Hc. unfold lastIndexOf.
  pose proof (lastIndexOf_from_found c s 0 (-1) ltac:(lia) Hc) as Hf. lia.
Qed.

Lemma lastIndexOf_from_append c a b : forall i found,
  lastIndexOf_from c (a +:+ b) i found =
    lastIndexOf_from c b (i + Z.of_nat (String.length a))
      (lastIndexOf_from c a i found).
Proof.
  induction a as [|d a IH]; intros i found.
  - rewrite append_nil_l. simpl. f_equal. lia.
  - rewrite append_cons. simpl lastIndexOf_from. rewrite IH. f_equal.
    simpl String.length. lia.
Qed.

Lemma sdrop_append a b : sdrop (String.length a) (a +:+ b) = b.
Proof. induction a as [|d a IH]; [reflexivity|]. rewrite append_cons. exact IH. Qed.

(** The domain is what follows the last [@], lower-cased. *)
Lemma emailDomain_append l d :
  contains "@" d = false -> emailDomain (l +:+ "@" +:+ d) = toLowerCase d.
Proof.
  intros Hd. unfold emailDomain, lastIndexOf, slice.
  rewrite lastIndexOf_from_append. rewrite append_cons, append_nil_l.
  simpl lastIndexOf_from. rewrite lastIndexOf_from_absent by assumption.
  replace (Z.to_nat (0 + Z.of_nat (String.length l) + 1))
    with (String.length (l +:+ "@")).
  - change (l +:+ String "@" d) with (l +:+ "@" +:+ d).
    rewrite <- (sdrop_append (l +:+ "@") d) at 2. f_equal. f_equal.
    clear. induction l as [|c l IH]; [reflexivity|].
    rewrite !append_cons. f_equal. exact IH.
  - clear. induction l as [|c l IH]; [reflexivity|].
    rewrite append_cons. simpl String.length. lia.
Qed.

End EmailFacts.

Section EmailValidation.
Context `{Platform}.
Import EmailFacts.

Lemma typeChecks_email f r v :
  typeChecks f r "email" v =
    match check_email f "email" v with
    | Some verdict => verdict
    | None => first_return [check_length f v; check_pattern f v] ok
    end.
Proof. unfold typeChecks. simpl. destruct (check_email f "email" v); reflexivity. Qed.

Lemma email_not_checkable f : typeAttr f = "email" -> isCheckable f = false.
Proof. unfold isCheckable. intros ->. reflexivity. Qed.

Lemma check_email_unfold f v :
  check_email f "email" v =
    if negb (Regex.test emailPattern v) then Some (failed "format")
    else if hasAttribute f "data-business-email-only" then
      if (lastIndexOf v "@" =? -1)%Z then Some (failed "format")
      else if includes freeDomains (emailDomain v) then Some (failed "format")
      else None
    else None.
Proof. reflexivity. Qed.

Lemma check_email_passes f v :
  check_email f "email" v = None ->
  Regex.test emailPattern v = true /\
  (hasAttribute f "data-business-email-only" = true ->
   includes freeDomains (emailDomain v) = false).
Proof.
  rewrite check_email_unfold.
  destruct (Regex.test emailPattern v); cbn [negb]; [|discriminate].
  destruct (hasAttribute f "data-business-email-only");
    [|intros _; split; congruence].
  destruct (lastIndexOf v "@" =? -1)%Z; [discriminate|].
  destruct (includes freeDomains (emailDomain v)); [discriminate|]. auto.
Qed.

Lemma check_email_denied f v :
  hasAttribute f "data-business-email-only" = true ->
  includes freeDomains (emailDomain v) = true ->
  check_email f "email" v = Some (failed "format").
Proof.
  intros Hflag Hdeny. rewrite check_email_unfold, Hflag, Hdeny.
  destruct (Regex.test emailPattern v); cbn [negb]; [|reflexivity].
  destruct (lastIndexOf v "@" =? -1)%Z; reflexivity.
Qed.

Lemma check_email_accepts f v :
  Regex.test emailPattern v = true ->
  (hasAttribute f "data-business-email-only" = true ->
   includes freeDomains (emailDomain v) = false) ->
  check_email f "email" v = None.
Proof.
  intros Hre Hallow. rewrite check_email_unfold, Hre. cbn [negb].
  destruct (hasAttribute f "data-business-email-only"); [|reflexivity].
  assert (Hat : lastIndexOf v "@" <> (-1)%Z).
  { apply lastIndexOf_contains, emailShape_contains_at, emailPattern_shape, Hre. }
  apply Z.eqb_neq in Hat. rewrite Hat, Hallow; reflexivity.
Qed.

Lemma unconstrained_rest f v :
  getAttribute f "minlength" = None -> getAttribute f "maxlength" = None ->
  getAttribute f "pattern" = None ->
  first_return [check_length f v; check_pattern f v] ok = ok.
Proof.
  intros Hmin Hmax Hpat. unfold check_length, check_pattern.
  rewrite Hmin, Hmax, Hpat. reflexivity.
Qed.

End EmailValidation.

(** C7: for a field of type email whose trimmed value is not empty, a valid
    verdict needs a value of the shape [local@domain.tld]; under the
    business-only flag a domain (what follows the last [@], lower-cased) on
    the list of nineteen free-mail providers gives [{valid: false, reason:
    'format'}], as for every address [...@gmail.com]; and where no length or
    pattern attribute is declared, ["a@b.com"] is valid, flagged or not, and
    so is a flagged [local@acme.io]. *)
Theorem validateField_email `{Platform} (f : Element) (e : JsValue) :
  typeAttr f = "email" -> trim (value f) <> "" ->
  (valid (validateField f e) = true -> emailShape (trim (value f))) /\
  (hasAttribute f "data-business-email-only" = true ->
   includes freeDomains (emailDomain (trim (value f))) = true ->
   validateField f e = mkVerdict false (Some "format")) /\
  length freeDomains = 19 /\
  (hasAttribute f "data-business-email-only" = true ->
   forall l, trim (value f) = l +:+ "@gmail.com" ->
   validateField f e = mkVerdict false (Some "format")) /\
  (getAttribute f "minlength" = None -> getAttribute f "maxlength" = None ->
   getAttribute f "pattern" = None ->
   (trim (value f) = "a@b.com" -> validateField f e = mkVerdict true None) /\
   (hasAttribute f "data-business-email-only" = true ->
    forall l, l <> "" -> sforall notSpaceAt l = true ->
    trim (value f) = l +:+ "@acme.io" ->
    validateField f e = mkVerdict true None)).
Proof.
  intros Ht Hv.
  rewrite (validateField_generic_nonempty f e (email_not_checkable f Ht) Hv).
  rewrite Ht, typeChecks_email.
  split; [|split; [|split; [|split]]].
  - destruct (check_email f "email" (trim (value f))) as [verdict|] eqn:Ec.
    + destruct (check_email_cases f "email" (trim (value f))) as [E | E];
        rewrite Ec in E; [discriminate|].
      injection E as ->. discriminate.
    + intros _. apply EmailFacts.emailPattern_shape.
      apply (check_email_passes f _ Ec).
  - intros Hflag Hdeny. rewrite check_email_denied by assumption. reflexivity.
  - reflexivity.
  - intros Hflag l Hl. rewrite check_email_denied; [reflexivity|assumption|].
    rewrite Hl.
    change (l +:+ "@gmail.com") with (l +:+ "@" +:+ "gmail.com").
    rewrite EmailFacts.emailDomain_append by reflexivity. reflexivity.
  - intros Hmin Hmax Hpat. rewrite unconstrained_rest by assumption. split.
    + intros Hab. rewrite check_email_accepts; [reflexivity| |];
        rewrite Hab; reflexivity.
    + intros Hflag l Hne Hl Hval. rewrite check_email_accepts; [reflexivity| |].
      * apply EmailFacts.emailPattern_shape. rewrite Hval.
        exists l, "acme", "io". repeat split; auto; discriminate.
      * intros _. rewrite Hval.
        change (l +:+ "@acme.io") with (l +:+ "@" +:+ "acme.io").
        rewrite EmailFacts.emailDomain_append by reflexivity. reflexivity.
Qed.

(** A flagged e-mail field holding ["joe@gmail.com"] is refused for its
    format, and ["a@b.com"] in a plain e-mail field is valid. *)
Lemma validateField_email_witness :
  @validateField Sample.platform
    (Sample.input "email" [("data-business-email-only", "true")] "joe@gmail.com")
    VNull = mkVerdict false (Some "format") /\
  @validateField Sample.platform (Sample.input "email" [] " a@b.com ") VNull =
    mkVerdict true None /\
  @validateField Sample.platform
    (Sample.input "email" [("data-business-email-only", "true")] "joe@acme.io")
    VNull = mkVerdict true None.
Proof.
  split; [|split].
  - refine (proj1 (proj2 (proj2 (proj2 (@validateField_email Sample.platform
      (Sample.input "email" [("data-business-email-only", "true")] "joe@gmail.com")
      VNull _ _)))) _ "joe" _); first [reflexivity | discriminate].
  - refine (proj1 (proj2 (proj2 (proj2 (proj2 (@validateField_email Sample.platform
      (Sample.input "email" [] " a@b.com ") VNull _ _)))) _ _ _) _);
      first [reflexivity | discriminate].
  - refine (proj2 (proj2 (proj2 (proj2 (proj2 (@validateField_email Sample.platform
      (Sample.input "email" [("data-business-email-only", "true")] "joe@acme.io")
      VNull _ _)))) _ _ _) _ "joe" _ _ _); first [reflexivity | discriminate].
Defined.

(** ** The pattern attribute *)

Section PatternValidation.
Context `{Platform}.







End PatternValidation.




(** ** Running the monad; what a write changes *)

Lemma bind_run {A B : Type} (m : M A) (k : A -> M B) (w : World) :
  (m ≫= k) w =
    match m w with
    | (w', Normal a) => k a w'
    | (w', Throw err) => (w', Throw err)
    end.
Proof. reflexivity. Qed.

Lemma getElement_updateWorld i f w j :
  getElement (updateWorld i f w) j =
    if decide (i = j /\ i < length (elements w)) then f (getElement w i)
    else getElement w j.
Proof. unfold getElement, updateWorld. simpl. apply list_lookup_total_alter. Qed.

Lemma length_updateWorld i f w :
  length (elements (updateWorld i f w)) = length (elements w).
Proof. unfold updateWorld. simpl. apply length_alter. Qed.

Lemma getElement_out_of_range w i :
  length (elements w) <= i -> getElement w i = inhabitant.
Proof.
  intros Hi. unfold getElement. rewrite list_lookup_total_alt.
  rewrite (proj2 (lookup_ge_None _ _) Hi). reflexivity.
Qed.

Lemma classList_contains_add e cls cls' :
  classList_contains (with_classList (fun s => s ∪ {[cls]}) e) cls' =
    classList_contains e cls' || streq cls cls'.
Proof.
  unfold classList_contains. simpl.
  destruct (streq cls cls') eqn:E.
  - apply streq_true in E as ->. rewrite orb_true_r.
    apply bool_decide_eq_true. set_solver.
  - apply streq_false in E. rewrite orb_false_r.
    apply bool_decide_ext. set_solver.
Qed.

Lemma classList_contains_remove e cls cls' :
  classList_contains (with_classList (fun s => s ∖ {[cls]}) e) cls' =
    classList_contains e cls' && negb (streq cls cls').
Proof.
  unfold classList_contains. simpl.
  destruct (streq cls cls') eqn:E.
  - apply streq_true in E as ->. rewrite andb_false_r.
    apply bool_decide_eq_false. set_solver.
  - apply streq_false in E. rewrite andb_true_r.
    apply bool_decide_ext. set_solver.
Qed.

Lemma classList_contains_inhabitant cls :
  classList_contains (inhabitant : Element) cls = false.
Proof. apply bool_decide_eq_false. set_solver. Qed.

(** ** Error presenter *)

Lemma setFieldErrorState_clear_element field s reason w :
  setFieldErrorState field (VElement s) false reason w =
    (cleared field s w, Normal tt).
Proof.
  unfold setFieldErrorState, cleared, capture.
  rewrite bind_run. unfold gets at 1.
  destruct (isEmpty (or_empty (dataset_defaultMessage (getElement w s)))); reflexivity.
Qed.

Lemma setFieldErrorState_clear_none field errorEl reason w :
  truthy errorEl = false ->
  setFieldErrorState field errorEl false reason w =
    (updateWorld field (with_classList (fun c => c ∖ {["is-invalid"]})) w, Normal tt).
Proof. destruct errorEl; simpl; intros Ht; try discriminate; reflexivity. Qed.

Lemma setFieldErrorState_builtin field name hasError reason w :
  setFieldErrorState field (VBuiltin name) hasError reason w = (w, Throw "TypeError").
Proof. reflexivity. Qed.

Lemma length_capture s w : length (elements (capture s w)) = length (elements w).
Proof.
  unfold capture. destruct (isEmpty _); [apply length_updateWorld | reflexivity].
Qed.

Lemma length_cleared field s w :
  length (elements (cleared field s w)) = length (elements w).
Proof.
  unfold cleared. cbv zeta. rewrite !length_updateWorld. apply length_capture.
Qed.

(** Reads after writes: every read of an element of a written page is
    reduced to a read of the page before, and the positions compared. *)
Ltac read_after_write :=
  repeat rewrite getElement_updateWorld;
  repeat rewrite length_updateWorld;
  repeat case_decide;
  repeat match goal with H : _ = _ /\ _ |- _ => destruct H as [? ?] end;
  subst;
  simpl;
  repeat first [ rewrite classList_contains_remove
               | rewrite classList_contains_add ];
  try solve [ exfalso; naive_solver lia ].

Lemma classList_capture s w j :
  classList (getElement (capture s w) j) = classList (getElement w j).
Proof.
  unfold capture. destruct (isEmpty _); [|reflexivity].
  read_after_write; reflexivity.
Qed.

Lemma classList_contains_capture s w j cls :
  classList_contains (getElement (capture s w) j) cls =
    classList_contains (getElement w j) cls.
Proof. unfold classList_contains. rewrite classList_capture. reflexivity. Qed.

Lemma classList_contains_with_textContent t e cls :
  classList_contains (with_textContent t e) cls = classList_contains e cls.
Proof. reflexivity. Qed.

Lemma cleared_field_valid field s w :
  classList_contains (getElement (cleared field s w) field) "is-invalid" = false.
Proof.
  destruct (decide (field < length (elements w))) as [Hlt | Hge].
  - pose proof (length_capture s w) as Hlen.
    unfold cleared. cbv zeta. read_after_write;
      rewrite ?classList_contains_with_textContent, ?classList_contains_remove;
      simpl; rewrite ?andb_false_r; try reflexivity;
      exfalso; naive_solver lia.
  - rewrite getElement_out_of_range by (rewrite length_cleared; lia).
    apply classList_contains_inhabitant.
Qed.

Lemma cleared_slot_hidden field s w :
  classList_contains (getElement (cleared field s w) s) "is-visible" = false.
Proof.
  destruct (decide (s < length (elements w))) as [Hlt | Hge].
  - pose proof (length_capture s w) as Hlen.
    unfold cleared. cbv zeta. read_after_write;
      rewrite ?classList_contains_with_textContent, ?classList_contains_remove;
      simpl; rewrite ?andb_false_r; try reflexivity;
      exfalso; naive_solver lia.
  - rewrite getElement_out_of_range by (rewrite length_cleared; lia).
    apply classList_contains_inhabitant.
Qed.

(** After a clearing presentation the slot shows the stored default, and the
    stored default is the one the capture step left. *)
Lemma cleared_slot_text field s w :
  s < length (elements w) ->
  textContent (getElement (cleared field s w) s) =
    or_empty (dataset_defaultMessage (getElement (capture s w) s)) /\
  dataset_defaultMessage (getElement (cleared field s w) s) =
    dataset_defaultMessage (getElement (capture s w) s).
Proof.
  intros Hlt. pose proof (length_capture s w) as Hlen.
  unfold cleared. cbv zeta. split; read_after_write; reflexivity.
Qed.

Lemma setFieldErrorState_show_element field s reason w :
  setFieldErrorState field (VElement s) true reason w =
    (shown field s reason w, Normal tt).
Proof.
  unfold setFieldErrorState, shown, capture.
  rewrite bind_run. unfold gets at 1.
  destruct (isEmpty (or_empty (dataset_defaultMessage (getElement w s))));
    cbv zeta; repeat (rewrite bind_run; simpl);
    (destruct reason as [r|];
     [ match goal with
       | |- context [getAttribute ?e "data-second-error"] =>
           destruct (getAttribute e "data-second-error")
       end; [destruct (streq r "format")|] |]);
    reflexivity.
Qed.

Lemma setFieldErrorState_show_none field errorEl reason w :
  truthy errorEl = false ->
  setFieldErrorState field errorEl true reason w =
    (updateWorld field (with_classList (fun c => c ∪ {["is-invalid"]})) w, Normal tt).
Proof. destruct errorEl; simpl; intros Ht; try discriminate; reflexivity. Qed.

Lemma length_shown field s reason w :
  length (elements (shown field s reason w)) = length (elements w).
Proof.
  unfold shown. cbv zeta. rewrite !length_updateWorld. apply length_capture.
Qed.

(** A default message that is not empty is captured from the slot's text at
    the first presentation. *)
Lemma capture_first s w :
  s < length (elements w) ->
  dataset_defaultMessage (getElement w s) = None ->
  dataset_defaultMessage (getElement (capture s w) s) =
    Some (textContent (getElement w s)).
Proof.
  intros Hlt Hnone. unfold capture. rewrite Hnone. simpl.
  read_after_write. unfold dataset_defaultMessage, getAttribute. simpl.
  apply lookup_insert_eq.
Qed.

(** Once a default message that is not empty is stored, no capture step
    touches the page. *)
Lemma capture_kept s w d :
  dataset_defaultMessage (getElement w s) = Some d -> d <> "" ->
  capture s w = w.
Proof.
  intros Hd Hne. unfold capture. rewrite Hd. simpl.
  apply isEmpty_false in Hne. rewrite Hne. reflexivity.
Qed.

Lemma stored_in_range s w d :
  dataset_defaultMessage (getElement w s) = Some d -> s < length (elements w).
Proof.
  intros Hd. destruct (decide (s < length (elements w))) as [Hlt | Hge]; [exact Hlt|].
  rewrite getElement_out_of_range in Hd by lia. discriminate.
Qed.

(** With a stored default that is not empty, every presentation keeps it, and
    every clearing presentation puts it back as the slot's text. *)
Lemma setFieldErrorState_default_kept field s hasError reason w d :
  dataset_defaultMessage (getElement w s) = Some d -> d <> "" ->
  exists w', setFieldErrorState field (VElement s) hasError reason w = (w', Normal tt) /\
    dataset_defaultMessage (getElement w' s) = Some d /\
    (hasError = false -> textContent (getElement w' s) = d).
Proof.
  intros Hd Hne. pose proof (stored_in_range s w d Hd) as Hlt.
  destruct hasError.
  - eexists. split; [apply setFieldErrorState_show_element|].
    split; [|discriminate].
    unfold shown. rewrite (capture_kept s w d Hd Hne). cbv zeta.
    read_after_write; exact Hd.
  - eexists. split; [apply setFieldErrorState_clear_element|].
    destruct (cleared_slot_text field s w Hlt) as [Ht Hdm].
    rewrite Ht, Hdm, (capture_kept s w d Hd Hne), Hd. auto.
Qed.

Lemma shown_slot_default field s reason w :
  dataset_defaultMessage (getElement (shown field s reason w) s) =
    dataset_defaultMessage (getElement (capture s w) s).
Proof.
  pose proof (length_capture s w) as Hlen.
  unfold shown. cbv zeta. read_after_write; reflexivity.
Qed.

(** The first presentation on a slot that has text stores that text. *)
Lemma setFieldErrorState_first_capture field s hasError reason w :
  s < length (elements w) ->
  dataset_defaultMessage (getElement w s) = None ->
  exists w',
    setFieldErrorState field (VElement s) hasError reason w = (w', Normal tt) /\
    dataset_defaultMessage (getElement w' s) = Some (textContent (getElement w s)).
Proof.
  intros Hlt Hnone. destruct hasError; eexists.
  - split; [apply setFieldErrorState_show_element|].
    rewrite shown_slot_default. apply capture_first; assumption.
  - split; [apply setFieldErrorState_clear_element|].
    rewrite (proj2 (cleared_slot_text field s w Hlt)).
    apply capture_first; assumption.
Qed.

(** C3: for a checkbox or radio in a context other than submit, and for a
    generic field with an empty trimmed value in each of the contexts
    ['input'], ['blur'] and ['change'], [handleField] computes
    [hasErrorToShow = false] and so runs the presenter with [false] and
    returns the verdict's [valid]; the verdict of a required empty generic
    field stays [{valid: false, reason: 'required'}]; when the error element
    is an element of the form, or none, the call returns that [valid] with
    the field not marked invalid and the element hidden; and so does every
    presenter run with [false]. *)
Theorem handleField_suppression `{Platform} (ctl : FormController)
    (field : nat) (context : string) (w : World) :
  let el := getElement w field in
  let errorEl := lookupErrorEl (errorMap ctl) el in
  let result := validateField el errorEl in
  let context' := if isEmpty context then "other" else context in
  (isCheckable el = true -> context <> "submit" ->
     hasErrorToShow el context' result = false /\
     handleField ctl field context w =
       (setFieldErrorState field errorEl false (reason result) ≫=
          fun _ => mret (valid result)) w /\
     ((forall name, errorEl <> VBuiltin name) ->
      exists w',
        handleField ctl field context w = (w', Normal (valid result)) /\
        classList_contains (getElement w' field) "is-invalid" = false /\
        (forall s, errorEl = VElement s ->
           classList_contains (getElement w' s) "is-visible" = false))) /\
  (isCheckable el = false ->
   context = "input" \/ context = "blur" \/ context = "change" ->
   trim (value el) = "" ->
     hasErrorToShow el context' result = false /\
     handleField ctl field context w =
       (setFieldErrorState field errorEl false (reason result) ≫=
          fun _ => mret (valid result)) w /\
     (isRequired el errorEl = true ->
        result = mkVerdict false (Some "required")) /\
     ((forall name, errorEl <> VBuiltin name) ->
      exists w',
        handleField ctl field context w = (w', Normal (valid result)) /\
        classList_contains (getElement w' field) "is-invalid" = false /\
        (forall s, errorEl = VElement s ->
           classList_contains (getElement w' s) "is-visible" = false))) /\
  (forall (shownEl : JsValue) (r : option string),
     (forall name, shownEl <> VBuiltin name) ->
     exists w',
       setFieldErrorState field shownEl false r w = (w', Normal tt) /\
       classList_contains (getElement w' field) "is-invalid" = false /\
       (forall s, shownEl = VElement s ->
          classList_contains (getElement w' s) "is-visible" = false)).
Proof.
  cbv zeta.
  assert (Hrun : forall b,
    hasErrorToShow (getElement w field)
      (if isEmpty context then "other" else context)
      (validateField (getElement w field)
         (lookupErrorEl (errorMap ctl) (getElement w field))) = b ->
    handleField ctl field context w =
      (setFieldErrorState field (lookupErrorEl (errorMap ctl) (getElement w field))
         b (reason (validateField (getElement w field)
                      (lookupErrorEl (errorMap ctl) (getElement w field)))) ≫=
       fun _ => mret (valid (validateField (getElement w field)
                      (lookupErrorEl (errorMap ctl) (getElement w field))))) w).
  { intros b <-. reflexivity. }
  assert (Hclear : forall (shownEl : JsValue) (r : option string),
     (forall name, shownEl <> VBuiltin name) ->
     exists w',
       setFieldErrorState field shownEl false r w = (w', Normal tt) /\
       classList_contains (getElement w' field) "is-invalid" = false /\
       (forall s, shownEl = VElement s ->
          classList_contains (getElement w' s) "is-visible" = false)).
  { intros shownEl r Hnb. destruct shownEl as [| | s | name].
    + eexists. split; [apply setFieldErrorState_clear_none; reflexivity|].
      split; [|discriminate].
      destruct (decide (field < length (elements w))).
      * read_after_write. rewrite andb_false_r. reflexivity.
      * rewrite getElement_out_of_range by (rewrite length_updateWorld; lia).
        apply classList_contains_inhabitant.
    + eexists. split; [apply setFieldErrorState_clear_none; reflexivity|].
      split; [|discriminate].
      destruct (decide (field < length (elements w))).
      * read_after_write. rewrite andb_false_r. reflexivity.
      * rewrite getElement_out_of_range by (rewrite length_updateWorld; lia).
        apply classList_contains_inhabitant.
    + eexists. split; [apply setFieldErrorState_clear_element|].
      split; [apply cleared_field_valid|].
      intros s' [= <-]. apply cleared_slot_hidden.
    + exfalso. apply (Hnb name). reflexivity. }
  assert (Hend : hasErrorToShow (getElement w field)
      (if isEmpty context then "other" else context)
      (validateField (getElement w field)
         (lookupErrorEl (errorMap ctl) (getElement w field))) = false ->
    (forall name, lookupErrorEl (errorMap ctl) (getElement w field)
                  <> VBuiltin name) ->
    exists w',
      handleField ctl field context w =
        (w', Normal (valid (validateField (getElement w field)
                       (lookupErrorEl (errorMap ctl) (getElement w field))))) /\
      classList_contains (getElement w' field) "is-invalid" = false /\
      (forall s, lookupErrorEl (errorMap ctl) (getElement w field) = VElement s ->
         classList_contains (getElement w' s) "is-visible" = false)).
  { intros Hs Hnb.
    destruct (Hclear _ (reason (validateField (getElement w field)
                (lookupErrorEl (errorMap ctl) (getElement w field)))) Hnb)
      as (w' & Hset & Hfield & Hslot).
    exists w'. split; [|split; assumption].
    rewrite (Hrun false Hs), bind_run, Hset. reflexivity. }
  split; [|split].
  - intros Hc Hctx.
    assert (Hs : hasErrorToShow (getElement w field)
              (if isEmpty context then "other" else context)
              (validateField (getElement w field)
                 (lookupErrorEl (errorMap ctl) (getElement w field))) = false).
    { unfold hasErrorToShow. rewrite Hc.
      assert (Hn : streq (if isEmpty context then "other" else context) "submit"
                   = false).
      { destruct (isEmpty context); [reflexivity|]. apply streq_false. exact Hctx. }
      rewrite Hn. simpl. repeat case_match; reflexivity. }
    split; [exact Hs | split; [apply Hrun, Hs | apply Hend, Hs]].
  - intros Hc Hthree Hv.
    assert (Hs : hasErrorToShow (getElement w field)
              (if isEmpty context then "other" else context)
              (validateField (getElement w field)
                 (lookupErrorEl (errorMap ctl) (getElement w field))) = false).
    { unfold hasErrorToShow. rewrite Hv.
      destruct Hthree as [-> | [-> | ->]]; simpl;
        destruct (isCheckable (getElement w field)); reflexivity. }
    split; [exact Hs | split; [apply Hrun, Hs | split; [|apply Hend, Hs]]].
    intros Hr. rewrite validateField_generic_empty by assumption.
    rewrite Hr. reflexivity.
  - exact Hclear.
Qed.

(** A checkbox with the [required] attribute, not checked, on a change event:
    nothing is shown, and the verdict is invalid.  The empty field of
    [required_field_page], required by its error element, on input, on blur
    and on change: each call returns false, the field is not marked and the
    element stays hidden. *)
Lemma handleField_suppression_witness :
  (hasErrorToShow (Sample.input "checkbox" [("required", "")] "on") "change"
     (@validateField Sample.platform
        (Sample.input "checkbox" [("required", "")] "on") VNull) = false /\
   valid (@validateField Sample.platform
        (Sample.input "checkbox" [("required", "")] "on") VNull) = false) /\
  (exists w',
     @handleField Sample.platform (mkController {["city" := 1]} [0]) 0 "input"
       required_field_page = (w', Normal false) /\
     classList_contains (getElement w' 0) "is-invalid" = false /\
     classList_contains (getElement w' 1) "is-visible" = false) /\
  (exists w',
     @handleField Sample.platform (mkController {["city" := 1]} [0]) 0 "blur"
       required_field_page = (w', Normal false) /\
     classList_contains (getElement w' 0) "is-invalid" = false /\
     classList_contains (getElement w' 1) "is-visible" = false) /\
  (exists w',
     @handleField Sample.platform (mkController {["city" := 1]} [0]) 0 "change"
       required_field_page = (w', Normal false) /\
     classList_contains (getElement w' 0) "is-invalid" = false /\
     classList_contains (getElement w' 1) "is-visible" = false).
Proof.
  split; [|split; [|split]].
  - split; [|reflexivity].
    refine (proj1 (proj1 (@handleField_suppression Sample.platform
      (mkController ∅ [0]) 0 "change"
      (Sample.page [Sample.input "checkbox" [("required", "")] "on"])) _ _));
      first [reflexivity | discriminate].
  - destruct (proj1 (proj2 (@handleField_suppression Sample.platform
      (mkController {["city" := 1]} [0]) 0 "input" required_field_page))
      eq_refl (or_introl eq_refl) eq_refl) as (_ & _ & _ & Hend).
    destruct Hend as (w' & Hrun & Hfield & Hslot); [discriminate|].
    exists w'. split; [exact Hrun|]. split; [exact Hfield|].
    apply Hslot. reflexivity.
  - destruct (proj1 (proj2 (@handleField_suppression Sample.platform
      (mkController {["city" := 1]} [0]) 0 "blur" required_field_page))
      eq_refl (or_intror (or_introl eq_refl)) eq_refl) as (_ & _ & _ & Hend).
    destruct Hend as (w' & Hrun & Hfield & Hslot); [discriminate|].
    exists w'. split; [exact Hrun|]. split; [exact Hfield|].
    apply Hslot. reflexivity.
  - destruct (proj1 (proj2 (@handleField_suppression Sample.platform
      (mkController {["city" := 1]} [0]) 0 "change" required_field_page))
      eq_refl (or_intror (or_intror eq_refl)) eq_refl) as (_ & _ & _ & Hend).
    destruct Hend as (w' & Hrun & Hfield & Hslot); [discriminate|].
    exists w'. split; [exact Hrun|]. split; [exact Hfield|].
    apply Hslot. reflexivity.
Defined.

(** C9, on [empty_default_page], where the slot's own text is empty: the
    blur on ["joe@"] shows the
    second message and stores the empty default; the blur after the value was
    corrected finds the stored default falsy, captures the second message as
    the default and "restores" it: the override stays in the slot, and in
    [dataset.defaultMessage]. *)
Theorem setFieldErrorState_empty_default_recaptured :
  match
    (ctl ← setupForm;
     v1 ← @handleField Sample.platform ctl 0 "blur";
     shown1 ← gets (fun w => textContent (getElement w 1));
     stored1 ← gets (fun w => dataset_defaultMessage (getElement w 1));
     updateElement 0 (with_value "joe@acme.io");;
     v2 ← @handleField Sample.platform ctl 0 "blur";
     mret (v1, shown1, stored1, v2)) empty_default_page
  with
  | (w, Normal (v1, shown1, stored1, v2)) =>
      v1 = false /\ shown1 = "Please enter a valid e-mail" /\
      stored1 = Some "" /\ v2 = true /\
      classList_contains (getElement w 0) "is-invalid" = false /\
      classList_contains (getElement w 1) "is-visible" = false /\
      textContent (getElement w 1) = "Please enter a valid e-mail" /\
      dataset_defaultMessage (getElement w 1) = Some "Please enter a valid e-mail"
  | (_, Throw _) => False
  end.
Proof. vm_compute. repeat split. Qed.

(** ** Error map builder *)

Lemma buildErrorMap_each_run map el w :
  buildErrorMap_each map el w = (hide w el, Normal (register map (slotKey w el) el)).
Proof.
  unfold buildErrorMap_each, hide, register, slotKey.
  rewrite bind_run. unfold gets.
  destruct (isEmpty (normalizeKey _)); reflexivity.
Qed.

Lemma attributes_hide w el j :
  attributes (getElement (hide w el) j) = attributes (getElement w j).
Proof.
  unfold hide. destruct (isEmpty _); [reflexivity|].
  read_after_write; reflexivity.
Qed.

Lemma slotKey_hide w el j : slotKey (hide w el) j = slotKey w j.
Proof. unfold slotKey, getAttribute. rewrite attributes_hide. reflexivity. Qed.

Lemma fold_register_hide els w el : forall m,
  fold_left (fun m e => register m (slotKey (hide w el) e) e) els m =
  fold_left (fun m e => register m (slotKey w e) e) els m.
Proof.
  induction els as [|e els IH]; intros m; [reflexivity|].
  simpl. rewrite slotKey_hide. apply IH.
Qed.

Lemma buildErrorMap_loop_run els : forall map w,
  buildErrorMap_loop els map w =
    (fold_left hide els w,
     Normal (fold_left (fun m el => register m (slotKey w el) el) els map)).
Proof.
  induction els as [|el els IH]; intros map w; [reflexivity|].
  simpl buildErrorMap_loop. rewrite bind_run, buildErrorMap_each_run, IH.
  simpl. rewrite fold_register_hide. reflexivity.
Qed.

(** [buildErrorMap] never throws. *)
Lemma buildErrorMap_run w :
  let errorEls := querySelectorAll (fun e => hasAttribute e "data-error-text") w in
  buildErrorMap w =
    (fold_left hide errorEls w,
     Normal (fold_left (fun m el => register m (slotKey w el) el) errorEls ∅)).
Proof.
  cbv zeta. unfold buildErrorMap. rewrite bind_run. unfold gets.
  apply buildErrorMap_loop_run.
Qed.

Lemma slotKey_fold_hide els : forall w j,
  slotKey (fold_left hide els w) j = slotKey w j.
Proof.
  induction els as [|el els IH]; intros w j; [reflexivity|].
  simpl. rewrite IH. apply slotKey_hide.
Qed.

Lemma length_hide w el : length (elements (hide w el)) = length (elements w).
Proof. unfold hide. destruct (isEmpty _); [reflexivity | apply length_updateWorld]. Qed.

Lemma visible_hide w el j :
  classList_contains (getElement (hide w el) j) "is-visible" = true ->
  classList_contains (getElement w j) "is-visible" = true.
Proof.
  unfold hide. destruct (isEmpty _); [auto|].
  read_after_write; [|auto]. rewrite andb_false_r. discriminate.
Qed.

Lemma visible_fold_hide els : forall w j,
  classList_contains (getElement (fold_left hide els w) j) "is-visible" = true ->
  classList_contains (getElement w j) "is-visible" = true.
Proof.
  induction els as [|el els IH]; intros w j Hv; [exact Hv|].
  simpl in Hv. apply IH in Hv. apply visible_hide in Hv. exact Hv.
Qed.

Lemma hide_hidden w el :
  slotKey w el <> "" ->
  classList_contains (getElement (hide w el) el) "is-visible" = false.
Proof.
  intros Hk. unfold hide. apply isEmpty_false in Hk. rewrite Hk.
  destruct (decide (el < length (elements w))).
  - read_after_write. rewrite andb_false_r. reflexivity.
  - rewrite getElement_out_of_range by (rewrite length_updateWorld; lia).
    apply classList_contains_inhabitant.
Qed.

(** A slot with a key is hidden by the loop, whatever happens to the map. *)
Lemma fold_hide_hidden els : forall w el,
  In el els -> slotKey w el <> "" ->
  classList_contains (getElement (fold_left hide els w) el) "is-visible" = false.
Proof.
  induction els as [|el' els IH]; intros w el Hin Hk; [destruct Hin|].
  simpl. destruct Hin as [-> | Hin].
  - apply not_true_is_false. intros Hv.
    apply visible_fold_hide in Hv. rewrite hide_hidden in Hv by exact Hk.
    discriminate.
  - apply IH; [exact Hin|]. rewrite slotKey_hide. exact Hk.
Qed.

(** An element whose key is empty is left as it was. *)
Lemma fold_hide_skips els : forall w j,
  slotKey w j = "" -> getElement (fold_left hide els w) j = getElement w j.
Proof.
  induction els as [|el els IH]; intros w j Hk; [reflexivity|].
  simpl. rewrite IH by (rewrite slotKey_hide; exact Hk).
  unfold hide. destruct (isEmpty (slotKey w el)) eqn:E; [reflexivity|].
  read_after_write; [|reflexivity].
  rewrite Hk in E. discriminate.
Qed.

(** C6, as the code has it: [buildErrorMap] returns normally, and every
    element with a [data-error-text] attribute whose normalized key is not
    empty is hidden afterwards, also when it lost its key to an earlier
    element or was not registered at all; an element whose normalized key is
    empty is returned from before the reset and stays exactly as it was. *)
Theorem buildErrorMap_hides_keyed_slots (w : World) (el : nat) :
  exists w' map,
    buildErrorMap w = (w', Normal map) /\
    (In el (querySelectorAll (fun e => hasAttribute e "data-error-text") w) ->
     slotKey w el <> "" ->
     classList_contains (getElement w' el) "is-visible" = false) /\
    (slotKey w el = "" -> getElement w' el = getElement w el).
Proof.
  eexists _, _. split; [apply buildErrorMap_run|]. split.
  - apply fold_hide_hidden.
  - apply fold_hide_skips.
Qed.

(** On [visible_slots_page] the keyed element, first in the page, is hidden. *)
Lemma buildErrorMap_hides_keyed_slots_witness :
  exists w' map,
    buildErrorMap visible_slots_page = (w', Normal map) /\
    classList_contains (getElement w' 0) "is-visible" = false.
Proof.
  destruct (buildErrorMap_hides_keyed_slots visible_slots_page 0)
    as (w' & map & Hrun & Hhide & _).
  exists w', map. split; [exact Hrun|].
  apply Hhide; [vm_compute; auto | vm_compute; discriminate].
Defined.

(** C6 with "every discovered slot", as the specification has it, fails for
    the second element of [visible_slots_page]: it is discovered, its key is
    empty, and it is still visible after [buildErrorMap]. *)
Lemma buildErrorMap_leaves_unkeyed_slot_visible :
  In 1 (querySelectorAll (fun e => hasAttribute e "data-error-text")
          visible_slots_page) /\
  classList_contains (getElement (fst (buildErrorMap visible_slots_page)) 1)
    "is-visible" = true.
Proof. vm_compute. auto. Qed.

Lemma get_truthy map k :
  truthy (JsObject.get map k) =
    match map !! k with Some _ => true | None => JsObject.inherited k end.
Proof.
  unfold JsObject.get. destruct (map !! k); [reflexivity|].
  destruct (JsObject.inherited k); reflexivity.
Qed.

Lemma fold_register_lookup w els : forall (m : gmap string nat) k,
  fold_left (fun m el => register m (slotKey w el) el) els m !! k =
    match m !! k with
    | Some e => Some e
    | None =>
        if isEmpty k || JsObject.inherited k then None else firstSlot w els k
    end.
Proof.
  induction els as [|el els IH]; intros m k.
  - simpl. destruct (m !! k); [reflexivity|].
    destruct (isEmpty k || JsObject.inherited k); reflexivity.
  - simpl fold_left. rewrite IH. unfold firstSlot. simpl List.find.
    fold (firstSlot w els k). unfold register.
    destruct (isEmpty (slotKey w el)) eqn:Ee.
    + destruct (streq (slotKey w el) k) eqn:Ek; [|reflexivity].
      apply streq_true in Ek. rewrite <- Ek, Ee. simpl.
      destruct (m !! slotKey w el); reflexivity.
    + rewrite get_truthy.
      destruct (streq (slotKey w el) k) eqn:Ek.
      * apply streq_true in Ek. subst k. rewrite Ee. simpl.
        destruct (m !! slotKey w el) eqn:Em; simpl; [rewrite Em; reflexivity|].
        destruct (JsObject.inherited (slotKey w el)) eqn:Ei; simpl.
        -- rewrite Em. reflexivity.
        -- unfold JsObject.set. rewrite lookup_insert_eq. reflexivity.
      * apply streq_false in Ek.
        destruct (m !! slotKey w el) eqn:Em; simpl; [reflexivity|].
        destruct (JsObject.inherited (slotKey w el)); simpl; [reflexivity|].
        unfold JsObject.set. rewrite lookup_insert_ne by exact Ek. reflexivity.
Qed.

(** Of the names inherited from [Object.prototype], only [constructor] is a
    normalized key. *)
Lemma inherited_key k :
  sforall isKeyChar k = true ->
  JsObject.inherited k = true <-> k = "constructor".
Proof.
  intros Hk. split; [|intros ->; reflexivity].
  unfold JsObject.inherited, JsObject.ObjectPrototype. simpl.
  rewrite !orb_true_iff.
  intros Hi.
  repeat match goal with
         | H : _ \/ _ |- _ => destruct H as [H | H]
         end;
    try discriminate;
    apply String.eqb_eq in Hi; subst k; first [reflexivity | discriminate Hk].
Qed.

(** Away from the inherited name, the first element with a key owns it; the
    key [constructor] is never registered, and reading it gives the built-in
    found in [Object.prototype]. *)
Lemma buildErrorMap_first_wins (w : World) :
  exists w' map,
    buildErrorMap w = (w', Normal map) /\
    (forall k, k <> "" -> JsObject.inherited k = false ->
       map !! k =
         firstSlot w
           (querySelectorAll (fun e => hasAttribute e "data-error-text") w) k) /\
    map !! "" = None /\
    map !! "constructor" = None /\
    JsObject.get map "constructor" = VBuiltin "constructor".
Proof.
  eexists _, _. split; [apply buildErrorMap_run|].
  assert (Hc : forall els,
    fold_left (fun m el => register m (slotKey w el) el) els ∅
      !! "constructor" = None).
  { intros els. rewrite fold_register_lookup, lookup_empty. reflexivity. }
  split; [|split; [|split]].
  - intros k Hne Hi. rewrite fold_register_lookup, lookup_empty, Hi.
    apply isEmpty_false in Hne. rewrite Hne. reflexivity.
  - rewrite fold_register_lookup, lookup_empty. reflexivity.
  - apply Hc.
  - unfold JsObject.get. rewrite Hc. reflexivity.
Qed.

(** C5, on [constructor_slots_page]: [!map[key]] reads the inherited
    [Object.prototype.constructor], which is truthy, so neither element is
    registered and the map has no own entry for the key; for [email] the
    first element is kept. *)
Theorem buildErrorMap_constructor_key_unregistered :
  slotKey constructor_slots_page 0 = "constructor" /\
  slotKey constructor_slots_page 1 = "constructor" /\
  match buildErrorMap constructor_slots_page with
  | (_, Normal map) =>
      map !! "constructor" = None /\
      JsObject.get map "constructor" = VBuiltin "constructor" /\
      map !! "email" = Some 2
  | (_, Throw _) => False
  end.
Proof. vm_compute. repeat split. Qed.

(** ** Submit *)

(** C2, on [constructor_field_page]: the error element looked up for the
    first field is the built-in inherited under the key [constructor]; the presenter throws a
    TypeError on it, inside [validateForm]; the listener ends there, so the
    submit is not canceled, nothing takes focus, and the second field, which
    is invalid, was never validated or marked. *)
Theorem onSubmit_constructor_field_throws :
  match (ctl ← setupForm; @onSubmit Sample.platform ctl) constructor_field_page with
  | (w, Throw err) =>
      err = "TypeError" /\
      defaultPrevented w = false /\
      propagationStopped w = false /\
      focused w = None /\
      @validateField Sample.platform (getElement w 1) VUndefined =
        mkVerdict false (Some "required") /\
      classList_contains (getElement w 1) "is-invalid" = false
  | (_, Normal _) => False
  end.
Proof. vm_compute. repeat split. Qed.

(** *** What validation reads, and what presentation writes *)

Lemma inputs_eq_refl e : inputs_eq e e.
Proof. unfold inputs_eq. auto. Qed.

Lemma inputs_eq_trans e1 e2 e3 : inputs_eq e1 e2 -> inputs_eq e2 e3 -> inputs_eq e1 e3.
Proof.
  unfold inputs_eq. intros (? & ? & ? & ? & H12) (? & ? & ? & ? & H23).
  repeat split; try congruence. intros n Hn. rewrite H12, H23; auto.
Qed.

Lemma inputs_eq_with_classList g e : inputs_eq e (with_classList g e).
Proof. unfold inputs_eq. simpl. auto. Qed.

Lemma inputs_eq_with_textContent t e : inputs_eq e (with_textContent t e).
Proof. unfold inputs_eq. simpl. auto. Qed.

Lemma inputs_eq_with_default t e :
  inputs_eq e (with_attribute "data-default-message" t e).
Proof.
  unfold inputs_eq. simpl. repeat split; auto.
  intros n Hn. rewrite lookup_insert_ne; auto.
Qed.

Section ReadsAndWrites.
Context `{Platform}.

Lemma inputs_eq_validateField e e' v :
  inputs_eq e e' -> validateField e v = validateField e' v.
Proof.
  intros (_ & _ & Hv & Hc & Ha).
  unfold validateField, typeChecks, check_tel, check_email, check_url,
    check_number, check_length, check_pattern, isRequired, typeAttr,
    hasAttribute, getAttribute.
  rewrite Hv, Hc. rewrite !Ha by discriminate. reflexivity.
Qed.

Lemma inputs_eq_getFieldKey e e' : inputs_eq e e' -> getFieldKey e = getFieldKey e'.
Proof.
  intros (_ & _ & _ & _ & Ha). unfold getFieldKey, getAttribute.
  rewrite !Ha by discriminate. reflexivity.
Qed.

Lemma inputs_eq_lookupErrorEl em e e' :
  inputs_eq e e' -> lookupErrorEl em e = lookupErrorEl em e'.
Proof.
  intros He. unfold lookupErrorEl. rewrite (inputs_eq_getFieldKey e e' He).
  reflexivity.
Qed.

Lemma inputs_eq_isButton e e' : inputs_eq e e' -> isButton e = isButton e'.
Proof. intros (_ & Ht & _). unfold isButton. rewrite Ht. reflexivity. Qed.

Lemma verdictOf_inputs ctl w w' f :
  inputs_eq (getElement w f) (getElement w' f) ->
  verdictOf ctl w f = verdictOf ctl w' f.
Proof.
  intros He. unfold verdictOf.
  rewrite (inputs_eq_lookupErrorEl _ _ _ He). apply inputs_eq_validateField, He.
Qed.

End ReadsAndWrites.

Lemma inputs_eq_updateWorld i f w j :
  (forall e, inputs_eq e (f e)) ->
  inputs_eq (getElement w j) (getElement (updateWorld i f w) j).
Proof.
  intros Hf. rewrite getElement_updateWorld.
  case_decide as Hd; [destruct Hd as [<- _]; apply Hf | apply inputs_eq_refl].
Qed.

Lemma inputs_eq_capture s w j :
  inputs_eq (getElement w j) (getElement (capture s w) j).
Proof.
  unfold capture. destruct (isEmpty _); [|apply inputs_eq_refl].
  apply inputs_eq_updateWorld. intros e. apply inputs_eq_with_default.
Qed.

Lemma marked_updateWorld_other i f w j :
  (forall e, classList (f e) = classList e) ->
  marked (updateWorld i f w) j = marked w j.
Proof.
  intros Hf. unfold marked, classList_contains. rewrite getElement_updateWorld.
  case_decide as Hd; [destruct Hd as [<- _]; rewrite Hf|]; reflexivity.
Qed.

Lemma marked_capture s w j : marked (capture s w) j = marked w j.
Proof. unfold marked. apply classList_contains_capture. Qed.

Lemma marked_toggle_visible s g w j :
  (forall c, "is-invalid" ∈ g c <-> "is-invalid" ∈ c) ->
  marked (updateWorld s (with_classList g) w) j = marked w j.
Proof.
  intros Hg. unfold marked, classList_contains. rewrite getElement_updateWorld.
  case_decide as Hd; [destruct Hd as [<- _]|reflexivity].
  simpl. apply bool_decide_ext, Hg.
Qed.

Lemma marked_set_invalid field (b : bool) w j :
  marked (updateWorld field
            (with_classList (fun c => if b then c ∪ {["is-invalid"]}
                                       else c ∖ {["is-invalid"]})) w) j =
    if decide (field = j /\ field < length (elements w)) then b else marked w j.
Proof.
  unfold marked, classList_contains. rewrite getElement_updateWorld.
  case_decide as Hd; [|reflexivity]. simpl.
  destruct b; [apply bool_decide_eq_true | apply bool_decide_eq_false]; set_solver.
Qed.

Lemma event_updateWorld i f w :
  defaultPrevented (updateWorld i f w) = defaultPrevented w /\
  propagationStopped (updateWorld i f w) = propagationStopped w /\
  focused (updateWorld i f w) = focused w.
Proof. auto. Qed.

Lemma event_capture s w :
  defaultPrevented (capture s w) = defaultPrevented w /\
  propagationStopped (capture s w) = propagationStopped w /\
  focused (capture s w) = focused w.
Proof. unfold capture. destruct (isEmpty _); auto. Qed.

Lemma visible_keeps_invalid_add (c : gset string) :
  "is-invalid" ∈ c ∪ {["is-visible"]} <-> "is-invalid" ∈ c.
Proof.
  rewrite elem_of_union, elem_of_singleton. split; [|auto].
  intros [Hc | Hc]; [exact Hc | discriminate Hc].
Qed.

Lemma visible_keeps_invalid_remove (c : gset string) :
  "is-invalid" ∈ c ∖ {["is-visible"]} <-> "is-invalid" ∈ c.
Proof.
  rewrite elem_of_difference, elem_of_singleton. split; [tauto|].
  intros Hc. split; [exact Hc | discriminate].
Qed.

(** The page after the four writes of a presentation on an element [s]. *)
Lemma presented_writes field s (b : bool) g msg w :
  (forall c, "is-invalid" ∈ g c <-> "is-invalid" ∈ c) ->
  presented field b w
    (updateWorld s (with_textContent msg)
       (updateWorld s (with_classList g)
          (updateWorld field
             (with_classList (fun c => if b then c ∪ {["is-invalid"]}
                                        else c ∖ {["is-invalid"]}))
             (capture s w)))).
Proof.
  intros Hg. split.
  - rewrite !length_updateWorld. apply length_capture.
  - destruct (event_capture s w) as (? & ? & ?). simpl. auto.
  - intros j.
    eapply inputs_eq_trans; [apply inputs_eq_capture|].
    eapply inputs_eq_trans;
      [apply inputs_eq_updateWorld; intros e; apply inputs_eq_with_classList|].
    eapply inputs_eq_trans;
      [apply inputs_eq_updateWorld; intros e; apply inputs_eq_with_classList|].
    apply inputs_eq_updateWorld; intros e; apply inputs_eq_with_textContent.
  - intros j Hj.
    rewrite marked_updateWorld_other by reflexivity.
    rewrite marked_toggle_visible by exact Hg.
    rewrite marked_set_invalid.
    case_decide as Hd; [destruct Hd as [Hd _]; congruence|].
    apply marked_capture.
  - intros Hlt.
    rewrite marked_updateWorld_other by reflexivity.
    rewrite marked_toggle_visible by exact Hg.
    rewrite marked_set_invalid, length_capture.
    case_decide as Hd; [reflexivity|]. exfalso. apply Hd. auto.
Qed.

Lemma presented_toggle field (b : bool) w :
  presented field b w
    (updateWorld field
       (with_classList (fun c => if b then c ∪ {["is-invalid"]}
                                  else c ∖ {["is-invalid"]})) w).
Proof.
  split.
  - apply length_updateWorld.
  - apply event_updateWorld.
  - intros j. apply inputs_eq_updateWorld. intros e. apply inputs_eq_with_classList.
  - intros j Hj. rewrite marked_set_invalid.
    case_decide as Hd; [destruct Hd as [Hd _]; congruence | reflexivity].
  - intros Hlt. rewrite marked_set_invalid.
    case_decide as Hd; [reflexivity|]. exfalso. apply Hd. auto.
Qed.

(** On an error element, or on none, the presenter returns, and all it
    changed that validation or the submit listener can see is the field's
    invalid marker. *)
Lemma setFieldErrorState_presented field errorEl hasError reason w :
  (forall name, errorEl <> VBuiltin name) ->
  exists w',
    setFieldErrorState field errorEl hasError reason w = (w', Normal tt) /\
    presented field hasError w w'.
Proof.
  intros Hnb.
  destruct errorEl as [| | s | name]; [| | |exfalso; eapply Hnb; reflexivity].
  - destruct hasError; eexists; (split; [reflexivity|]).
    + apply (presented_toggle field true).
    + apply (presented_toggle field false).
  - destruct hasError; eexists; (split; [reflexivity|]).
    + apply (presented_toggle field true).
    + apply (presented_toggle field false).
  - destruct hasError; eexists.
    + split; [apply setFieldErrorState_show_element|].
      unfold shown. cbv zeta.
      apply (presented_writes field s true). apply visible_keeps_invalid_add.
    + split; [apply setFieldErrorState_clear_element|].
      unfold cleared. cbv zeta.
      apply (presented_writes field s false). apply visible_keeps_invalid_remove.
Qed.

Section SubmitFacts.
Context `{Platform}.

Lemma hasErrorToShow_submit el result :
  hasErrorToShow el "submit" result = negb (valid result).
Proof.
  unfold hasErrorToShow. simpl. rewrite andb_false_r. reflexivity.
Qed.

(** A field whose key is not [constructor] never gets a built-in for its
    error element. *)
Lemma lookupErrorEl_not_builtin em el :
  getFieldKey el <> "constructor" ->
  forall name, lookupErrorEl em el <> VBuiltin name.
Proof.
  intros Hk name. unfold lookupErrorEl, JsObject.get.
  destruct (isEmpty (getFieldKey el)); [discriminate|].
  destruct (em !! getFieldKey el); [discriminate|].
  destruct (JsObject.inherited (getFieldKey el)) eqn:Ei; [|discriminate].
  exfalso. apply Hk. apply inherited_key; [|exact Ei].
  apply normalizeKey_key_chars.
Qed.

Lemma handleField_submit ctl field w :
  getFieldKey (getElement w field) <> "constructor" ->
  exists w',
    handleField ctl field "submit" w = (w', Normal (valid (verdictOf ctl w field))) /\
    presented field (negb (valid (verdictOf ctl w field))) w w'.
Proof.
  intros Hk.
  destruct (setFieldErrorState_presented field
              (lookupErrorEl (errorMap ctl) (getElement w field))
              (negb (valid (verdictOf ctl w field)))
              (reason (verdictOf ctl w field)) w
              (lookupErrorEl_not_builtin _ _ Hk)) as (w' & Hrun & Hp).
  exists w'. split; [|exact Hp].
  unfold handleField. simpl isEmpty. cbv iota.
  rewrite bind_run. unfold gets at 1. cbv beta iota.
  rewrite hasErrorToShow_submit. fold (verdictOf ctl w field).
  rewrite bind_run, Hrun. reflexivity.
Qed.

End SubmitFacts.

Section SubmitSpec.
Context `{Platform}.

Lemma passes_inputs ctl w w' f :
  inputs_eq (getElement w f) (getElement w' f) -> passes ctl w f = passes ctl w' f.
Proof.
  intros He. unfold passes.
  rewrite (inputs_eq_isButton _ _ He), (verdictOf_inputs ctl w w' f He).
  reflexivity.
Qed.

Lemma validateForm_loop_spec ctl fs : forall acc w,
  List.NoDup fs ->
  (forall f, In f fs -> f < length (elements w)) ->
  (forall f, In f fs -> getFieldKey (getElement w f) <> "constructor") ->
  exists w',
    validateForm_loop ctl fs acc w =
      (w', Normal (acc && forallb (passes ctl w) fs)) /\
    validated ctl fs w w'.
Proof.
  induction fs as [|f rest IH]; intros acc w Hnd Hin Hkey.
  - exists w. simpl. rewrite andb_true_r. split; [reflexivity|].
    split; auto using inputs_eq_refl. intros f [].
  - apply NoDup_cons_iff in Hnd as [Hf Hnd].
    simpl validateForm_loop. rewrite bind_run. unfold gets at 1. cbv beta iota.
    simpl forallb. unfold passes at 1.
    destruct (isButton (getElement w f)) eqn:Hb.
    + destruct (IH acc w Hnd) as (w' & Hrun & Hv);
        [intros g Hg; apply Hin; right; exact Hg
        |intros g Hg; apply Hkey; right; exact Hg|].
      exists w'. split; [rewrite Hrun; reflexivity|].
      destruct Hv as [Hl He Hi Ho Hfs]. split; auto.
      * intros j Hj. apply Ho. intros Hr. apply Hj. right. exact Hr.
      * intros g [<- | Hg]; [rewrite Hb; apply Ho, Hf | apply Hfs, Hg].
    + destruct (handleField_submit ctl f w) as (w1 & Hrun1 & Hp);
        [apply Hkey; left; reflexivity|].
      destruct Hp as [Hl1 He1 Hi1 Ho1 Hf1].
      destruct (IH (if negb (valid (verdictOf ctl w f)) then false else acc) w1 Hnd)
        as (w' & Hrun & Hv).
      { intros g Hg. rewrite Hl1. apply Hin. right. exact Hg. }
      { intros g Hg. rewrite <- (inputs_eq_getFieldKey _ _ (Hi1 g)).
        apply Hkey. right. exact Hg. }
      destruct Hv as [Hl He Hi Ho Hfs].
      assert (Hpass : forallb (passes ctl w1) rest = forallb (passes ctl w) rest).
      { clear -Hi1. induction rest as [|g rest IHr]; [reflexivity|].
        simpl. rewrite IHr, <- (passes_inputs ctl w w1 g (Hi1 g)). reflexivity. }
      exists w'. split.
      * rewrite bind_run, Hrun1, Hrun, Hpass. simpl.
        destruct (valid (verdictOf ctl w f)), acc; reflexivity.
      * split.
        -- congruence.
        -- destruct He as (? & ? & ?), He1 as (? & ? & ?).
           repeat split; congruence.
        -- intros j. eapply inputs_eq_trans; [apply Hi1 | apply Hi].
        -- intros j Hj. rewrite Ho by (intros Hr; apply Hj; right; exact Hr).
           apply Ho1. intros ->. apply Hj. left. reflexivity.
        -- intros g [<- | Hg].
           ++ rewrite Hb, (Ho f Hf). apply Hf1, Hin. left. reflexivity.
           ++ rewrite (Hfs g Hg).
              rewrite <- (inputs_eq_isButton _ _ (Hi1 g)).
              rewrite <- (verdictOf_inputs ctl w w1 g (Hi1 g)).
              rewrite Ho1; [reflexivity|]. intros ->. apply Hf, Hg.
Qed.

Lemma querySelectorAll_NoDup p w : List.NoDup (querySelectorAll p w).
Proof. unfold querySelectorAll. apply List.NoDup_filter, List.seq_NoDup. Qed.

Lemma querySelectorAll_in_range p w f :
  In f (querySelectorAll p w) -> f < length (elements w).
Proof.
  unfold querySelectorAll. intros Hin. apply filter_In in Hin as [Hin _].
  apply in_seq in Hin. lia.
Qed.

(** The branch of the listener for a form that is not valid. *)
Lemma onSubmit_cancel_run (ctl : FormController) (w1 : World) :
  (preventDefault;;
   stopPropagation;;
   firstInvalid ← gets (fun w =>
     List.find (fun f => classList_contains (getElement w f) "is-invalid")
       (fields ctl));
   match firstInvalid with
   | Some f => focus f
   | None => mret tt
   end) w1 =
  (mkWorld (elements w1) true true
     match List.find (marked w1) (fields ctl) with
     | Some f => Some f
     | None => focused w1
     end, Normal tt).
Proof.
  change ((preventDefault;; stopPropagation;; _) w1) with
    (match List.find (marked w1) (fields ctl) with
     | Some f => focus f
     | None => mret tt
     end (mkWorld (elements w1) true true (focused w1))).
  destruct (List.find (marked w1) (fields ctl)); reflexivity.
Qed.

(** The submit listener on a form none of whose fields has the key
    [constructor]: it returns; when [focus()] is called, or the listener
    ends without calling it, every field that is not a button is marked
    invalid exactly when its verdict is; when all verdicts are valid the
    event and the focus are untouched; when one is not, the default action
    and the propagation are canceled and [focus()] is called on the first
    field of the form, in document order, that is marked invalid. *)
Lemma onSubmit_spec (ctl : FormController) (w : World) :
  fields ctl = querySelectorAll isField w ->
  (forall f, In f (fields ctl) -> getFieldKey (getElement w f) <> "constructor") ->
  exists w',
    onSubmit ctl w = (w', Normal tt) /\
    (forall f, In f (fields ctl) -> isButton (getElement w f) = false ->
       marked w' f = negb (valid (verdictOf ctl w f))) /\
    (forallb (passes ctl w) (fields ctl) = true ->
       defaultPrevented w' = defaultPrevented w /\
       propagationStopped w' = propagationStopped w /\
       focused w' = focused w) /\
    (forallb (passes ctl w) (fields ctl) = false ->
       defaultPrevented w' = true /\ propagationStopped w' = true /\
       exists f0, focused w' = Some f0 /\
                  List.find (marked w') (fields ctl) = Some f0).
Proof.
  intros Hfields Hkey.
  destruct (validateForm_loop_spec ctl (fields ctl) true w)
    as (w1 & Hrun & [Hl He Hi Ho Hfs]).
  { rewrite Hfields. apply querySelectorAll_NoDup. }
  { intros f Hf. rewrite Hfields in Hf. eapply querySelectorAll_in_range, Hf. }
  { exact Hkey. }
  simpl andb in Hrun.
  assert (Hmark : forall f, In f (fields ctl) ->
            isButton (getElement w f) = false ->
            marked w1 f = negb (valid (verdictOf ctl w f))).
  { intros f Hf Hb. rewrite (Hfs f Hf), Hb. reflexivity. }
  unfold onSubmit, validateForm. rewrite bind_run, Hrun.
  destruct (forallb (passes ctl w) (fields ctl)) eqn:Hall; cbv beta iota.
  - exists w1. simpl. split; [reflexivity|].
    split; [exact Hmark|]. split; [intros _; exact He | discriminate].
  - change (negb false) with true. cbv iota.
    rewrite onSubmit_cancel_run.
    destruct (List.find (marked w1) (fields ctl)) as [f0|] eqn:Hfind.
    + eexists. split; [reflexivity|].
      split; [exact Hmark|]. split; [discriminate|].
      intros _. simpl. repeat split. exists f0. split; [reflexivity|].
      exact Hfind.
    + exfalso.
      assert (Hex : exists f, In f (fields ctl) /\ passes ctl w f = false).
      { clear -Hall. induction (fields ctl) as [|f fs IH]; [discriminate|].
        simpl in Hall. apply andb_false_iff in Hall as [Hf | Hr].
        - exists f. split; [left; reflexivity | exact Hf].
        - destruct (IH Hr) as (g & Hg & Hp). exists g. split; [right|]; assumption. }
      destruct Hex as (f & Hf & Hp). unfold passes in Hp.
      apply orb_false_iff in Hp as [Hb Hv].
      pose proof (List.find_none _ _ Hfind f Hf) as Hn.
      rewrite (Hmark f Hf Hb), Hv in Hn. discriminate.
Qed.

End SubmitSpec.

(** [setupForm] returns the controller of the page it leaves. *)
Lemma setupForm_run (w : World) :
  exists w' ctl,
    setupForm w = (w', Normal ctl) /\
    fields ctl = querySelectorAll isField w' /\
    buildErrorMap w = (w', Normal (errorMap ctl)).
Proof.
  unfold setupForm. rewrite bind_run, buildErrorMap_run.
  eexists _, _. split; [reflexivity|]. split; reflexivity.
Qed.

(** * Further properties *)

(** ** Telephone numbers *)

Module PhoneFacts.

Import RegexFacts EmailFacts.

Lemma isDigitOrPlus_not_terminator c :
  isDigitOrPlus c = true -> negb (isLineTerminator c) = true.
Proof. each_char c; vm_compute; congruence. Qed.

Lemma isDigit_isDigitOrPlus c : isDigit c = true -> isDigitOrPlus c = true.
Proof. unfold isDigitOrPlus. intros ->. reflexivity. Qed.

Lemma existsb_chars p s :
  existsb p (String.list_ascii_of_string s) = sexists p s.
Proof. induction s as [|c s IH]; [reflexivity|]. simpl. rewrite IH. reflexivity. Qed.

Lemma existsb_split (p : ascii -> bool) w :
  existsb p w = true -> exists u d v, w = u ++ d :: v /\ p d = true.
Proof.
  induction w as [|c w IH]; simpl; intros He; [discriminate|].
  destruct (p c) eqn:Ep.
  - exists [], c, w. auto.
  - destruct (IH He) as (u & d & v & -> & Hd). exists (c :: u), d, v. auto.
Qed.

Lemma forallb_weaken (p q : ascii -> bool) w :
  (forall c, p c = true -> q c = true) -> forallb p w = true -> forallb q w = true.
Proof.
  intros Hpq. induction w as [|c w IH]; simpl; [auto|].
  intros Hf. apply andb_true_iff in Hf as [Hc Hw].
  rewrite (Hpq c Hc), IH; auto.
Qed.

Lemma Matches_Star_Any w : Matches (Star Any) w.
Proof. apply Matches_Star_Cls. induction w; simpl; auto. Qed.

Lemma phonePattern_isPhone v : Regex.test phonePattern v = isPhone v.
Proof.
  apply eq_true_iff_eq. unfold Regex.test, phonePattern, LookaheadThen, isPhone.
  rewrite matchesb_Matches, andb_true_iff, <- forallb_chars, <- existsb_chars.
  set (w := String.list_ascii_of_string v). split.
  - intros Hm. inversion Hm as [| | | | |r s u Hlook Hall| |]; subst.
    apply Matches_Plus_Cls in Hall as [_ Hall]. split; [exact Hall|].
    apply Matches_Cat in Hlook as (x & y & Ew & Hx & _).
    apply Matches_Cat in Hx as (x1 & x2 & -> & _ & Hd).
    inversion Hd; subst. rewrite Ew, !existsb_app. simpl.
    match goal with E : isDigit _ = true |- _ => rewrite E end.
    rewrite orb_true_r. reflexivity.
  - intros [Hall Hex]. constructor.
    + destruct (existsb_split _ _ Hex) as (u & d & x & Ew & Hd).
      rewrite Ew. change (u ++ d :: x) with (u ++ [d] ++ x). rewrite app_assoc.
      constructor; [|apply Matches_Star_Any].
      constructor; [|constructor; exact Hd].
      apply Matches_Star_Cls.
      apply (forallb_weaken isDigitOrPlus); [apply isDigitOrPlus_not_terminator|].
      rewrite Ew, forallb_app in Hall. apply andb_true_iff in Hall as [Hu _].
      exact Hu.
    + apply Matches_Plus_Cls. split; [|exact Hall].
      destruct w; [discriminate Hex | discriminate].
Qed.

End PhoneFacts.

Section TypeChecksFacts.
Context `{Platform}.

Lemma unconstrained_tail f v :
  unconstrained f -> check_length f v = None /\ check_pattern f v = None.
Proof.
  intros (Hmin & Hmax & Hpat). unfold check_length, check_pattern.
  rewrite Hmin, Hmax, Hpat. auto.
Qed.

Lemma tel_not_checkable f : typeAttr f = "tel" -> isCheckable f = false.
Proof. unfold isCheckable. intros ->. reflexivity. Qed.

Lemma typeChecks_tel f r v :
  typeChecks f r "tel" v =
    if Regex.test phonePattern v
    then first_return [check_length f v; check_pattern f v] ok
    else failed "format".
Proof.
  unfold typeChecks, check_tel. simpl.
  destruct (Regex.test phonePattern v); reflexivity.
Qed.

End TypeChecksFacts.

(** X1: for a field of type tel whose trimmed value is not empty, the value
    passes the telephone check exactly when it is made of digits and plus
    signs and holds a digit; a value that does not is
    [{valid: false, reason: 'format'}], and one that does is valid when no
    length or pattern attribute is declared. *)
Theorem validateField_tel `{Platform} (f : Element) (e : JsValue) :
  typeAttr f = "tel" -> trim (value f) <> "" ->
  Regex.test phonePattern (trim (value f)) = isPhone (trim (value f)) /\
  (isPhone (trim (value f)) = false ->
     validateField f e = mkVerdict false (Some "format")) /\
  (isPhone (trim (value f)) = true -> unconstrained f ->
     validateField f e = mkVerdict true None).
Proof.
  intros Ht Hv.
  rewrite (validateField_generic_nonempty f e (tel_not_checkable f Ht) Hv).
  rewrite Ht, typeChecks_tel, PhoneFacts.phonePattern_isPhone.
  split; [reflexivity|]. split.
  - intros ->. reflexivity.
  - intros -> Hu. destruct (unconstrained_tail f (trim (value f)) Hu) as [-> ->].
    reflexivity.
Qed.

(** ["+1234"] is a valid telephone number, ["12a"] and ["+"] are not. *)
Lemma validateField_tel_witness :
  @validateField Sample.platform (Sample.input "tel" [] "+1234") VNull =
    mkVerdict true None /\
  @validateField Sample.platform (Sample.input "tel" [] "12a") VNull =
    mkVerdict false (Some "format") /\
  @validateField Sample.platform (Sample.input "tel" [] "+") VNull =
    mkVerdict false (Some "format").
Proof.
  split; [|split].
  - refine (proj2 (proj2 (@validateField_tel Sample.platform
      (Sample.input "tel" [] "+1234") VNull _ _)) _ _);
      first [reflexivity | discriminate | repeat split].
  - refine (proj1 (proj2 (@validateField_tel Sample.platform
      (Sample.input "tel" [] "12a") VNull _ _)) _);
      first [reflexivity | discriminate].
  - refine (proj1 (proj2 (@validateField_tel Sample.platform
      (Sample.input "tel" [] "+") VNull _ _)) _);
      first [reflexivity | discriminate].
Defined.

(** ** Web addresses *)

Module UrlFacts.

Import RegexFacts EmailFacts PhoneFacts.

Lemma Matches_within q r w : within q r -> Matches r w -> forallb q w = true.
Proof.
  intros Hq Hm. induction Hm; simpl in Hq; try reflexivity.
  - simpl. rewrite (Hq c) by assumption. reflexivity.
  - destruct Hq as [Hr Hs]. rewrite forallb_app, IHHm1, IHHm2; auto.
  - apply IHHm, Hq.
  - apply IHHm, Hq.
  - apply IHHm1, Hq.
  - rewrite forallb_app, IHHm1, IHHm2; auto.
Qed.

Lemma ChrI_letter c d :
  In c ["h"; "t"; "p"; "s"]%char ->
  (Ascii.eqb (toLowerChar d) (toLowerChar c) && (code d <? 128)%N) = true ->
  notSpaceDot d = true.
Proof.
  intros Hc. simpl in Hc.
  repeat destruct Hc as [<- | Hc]; try destruct Hc;
    each_char d; vm_compute; congruence.
Qed.

Lemma Chr_notSpaceDot c d :
  notSpaceDot c = true -> Ascii.eqb c d = true -> notSpaceDot d = true.
Proof. intros Hc Hd. apply Ascii.eqb_eq in Hd. subst. exact Hc. Qed.

(** The protocol prefix holds no white space and no dot. *)
Definition urlPrefix : regex :=
  Cat (ChrI "h") (Cat (ChrI "t") (Cat (ChrI "t") (Cat (ChrI "p")
    (Cat (Opt (ChrI "s")) (Cat (Chr ":") (Cat (Chr "/") (Chr "/"))))))).

Lemma urlPrefix_within : within notSpaceDot urlPrefix.
Proof.
  assert (Hl : forall c, In c ["h"; "t"; "p"; "s"]%char ->
                         within notSpaceDot (ChrI c)).
  { intros c Hc d. apply ChrI_letter, Hc. }
  assert (Hc : forall c, notSpaceDot c = true -> within notSpaceDot (Chr c)).
  { intros c Hc d. apply Chr_notSpaceDot, Hc. }
  unfold urlPrefix, Opt. cbn [within].
  repeat match goal with
         | |- _ /\ _ => split
         | |- True => exact I
         | |- within _ (ChrI _) => apply Hl; simpl; tauto
         | |- within _ (Chr _) => apply Hc; reflexivity
         end.
Qed.

Lemma of_chars_append u v :
  String.string_of_list_ascii (u ++ v) =
    String.string_of_list_ascii u +:+ String.string_of_list_ascii v.
Proof.
  induction u as [|c u IH]; [reflexivity|].
  simpl. rewrite append_cons, IH. reflexivity.
Qed.

Lemma length_of_chars u :
  String.length (String.string_of_list_ascii u) = length u.
Proof. induction u as [|c u IH]; [reflexivity|]. simpl. rewrite IH. reflexivity. Qed.

Lemma sforall_of_chars p u :
  sforall p (String.string_of_list_ascii u) = forallb p u.
Proof.
  rewrite <- forallb_chars, String.list_ascii_of_string_of_list_ascii. reflexivity.
Qed.

Lemma Matches_AtLeast2_Cls p w :
  Matches (AtLeast2 (Cls p)) w <-> 2 <= length w /\ forallb p w = true.
Proof.
  unfold AtLeast2. split.
  - intros Hm. apply Matches_Cat in Hm as (x & r & -> & Hx & Hm).
    apply Matches_Plus_Cls in Hm as [Hne Hf].
    inversion Hx; subst. simpl.
    match goal with E : p _ = true |- _ => rewrite E end.
    split; [destruct r; [congruence | simpl; lia] | exact Hf].
  - intros [Hlen Hf]. destruct w as [|x [|y r]]; simpl in Hlen; try lia.
    simpl in Hf. apply andb_true_iff in Hf as [Hx Hf].
    change (x :: y :: r) with ([x] ++ y :: r).
    constructor; [constructor; exact Hx|].
    apply Matches_Plus_Cls. split; [discriminate | exact Hf].
Qed.

Lemma urlPattern_shape v : Regex.test urlPattern v = true <-> urlShape v.
Proof.
  unfold Regex.test, urlPattern, urlShape. fold urlPrefix.
  fold notSpaceDot. fold notSpace.
  change (fun c => negb (isWhiteSpace c || Ascii.eqb c ".")) with notSpaceDot.
  change (fun c => negb (isWhiteSpace c)) with notSpace.
  rewrite matchesb_Matches. split.
  - intros Hm.
    apply Matches_Cat in Hm as (pre & r1 & E1 & Hpre & Hm).
    apply Matches_Cat in Hm as (a & r2 & E2 & Ha & Hm).
    apply Matches_Cat in Hm as (o & b & E3 & Ho & Hb).
    apply Matches_Chr in Ho. subst o r2 r1.
    apply Matches_Plus_Cls in Ha as [Na Fa].
    apply Matches_AtLeast2_Cls in Hb as [Lb Fb].
    assert (Fpre : forallb notSpaceDot pre = true).
    { inversion Hpre; subst.
      - match goal with E : Matches Eps _ |- _ => inversion E end. reflexivity.
      - eapply Matches_within; [apply urlPrefix_within | eassumption]. }
    exists (String.string_of_list_ascii (pre ++ a)), (String.string_of_list_ascii b).
    split; [|split; [|split; [|split]]].
    + rewrite <- (String.string_of_list_ascii_of_string v), E1.
      rewrite app_assoc, of_chars_append.
      change ("." :: b)%char with (["."]%char ++ b). rewrite of_chars_append.
      reflexivity.
    + apply of_chars_nonempty. destruct pre; [exact Na | discriminate].
    + rewrite sforall_of_chars, forallb_app, Fpre, Fa. reflexivity.
    + rewrite length_of_chars. exact Lb.
    + rewrite sforall_of_chars. exact Fb.
  - intros (a & b & -> & Na & Fa & Lb & Fb).
    rewrite !chars_append. simpl.
    change (?x ++ ?y) with ([] ++ x ++ y) at 1.
    constructor; [apply MAltL; constructor|].
    constructor; [apply Matches_Plus_Cls; rewrite forallb_chars;
                  auto using chars_nonempty|].
    change (?x :: ?r) with ([x] ++ r) at 1.
    constructor; [apply Matches_Chr; reflexivity|].
    apply Matches_AtLeast2_Cls. rewrite forallb_chars. split; [|exact Fb].
    rewrite <- (String.string_of_list_ascii_of_string b), length_of_chars in Lb.
    exact Lb.
Qed.

End UrlFacts.

Section UrlValidation.
Context `{Platform}.

Lemma url_not_checkable f : typeAttr f = "url" -> isCheckable f = false.
Proof. unfold isCheckable. intros ->. reflexivity. Qed.

Lemma typeChecks_url f r v :
  typeChecks f r "url" v =
    if Regex.test urlPattern v
    then first_return [check_length f v; check_pattern f v] ok
    else failed "format".
Proof.
  unfold typeChecks, check_url. simpl.
  destruct (Regex.test urlPattern v); reflexivity.
Qed.

End UrlValidation.

(** X2: for a field of type url whose trimmed value is not empty, a valid
    verdict needs a value made of a run without white space or dot that is
    not empty, then a dot, then two or more characters without white space
    (the optional [http://] or [https://] is part of the first run and adds
    nothing); a value of that shape is valid when no length or pattern
    attribute is declared, and any other is [{valid: false, reason:
    'format'}]. *)
Theorem validateField_url `{Platform} (f : Element) (e : JsValue) :
  typeAttr f = "url" -> trim (value f) <> "" ->
  (valid (validateField f e) = true -> urlShape (trim (value f))) /\
  (~ urlShape (trim (value f)) ->
     validateField f e = mkVerdict false (Some "format")) /\
  (urlShape (trim (value f)) -> unconstrained f ->
     validateField f e = mkVerdict true None).
Proof.
  intros Ht Hv.
  rewrite (validateField_generic_nonempty f e (url_not_checkable f Ht) Hv).
  rewrite Ht, typeChecks_url.
  destruct (Regex.test urlPattern (trim (value f))) eqn:Hre.
  - apply UrlFacts.urlPattern_shape in Hre. split; [auto|]. split; [tauto|].
    intros _ Hu. destruct (unconstrained_tail f (trim (value f)) Hu) as [-> ->].
    reflexivity.
  - split; [discriminate|]. split; [reflexivity|].
    intros Hs. apply UrlFacts.urlPattern_shape in Hs. congruence.
Qed.

(** ["HTTPS://example.com"] and ["example.io"] are valid, ["example.c"] and
    [".com"] are not. *)
Lemma validateField_url_witness :
  @validateField Sample.platform (Sample.input "url" [] "HTTPS://example.com")
    VNull = mkVerdict true None /\
  @validateField Sample.platform (Sample.input "url" [] "example.c") VNull =
    mkVerdict false (Some "format").
Proof.
  split.
  - refine (proj2 (proj2 (@validateField_url Sample.platform
      (Sample.input "url" [] "HTTPS://example.com") VNull _ _)) _ _);
      first [reflexivity | discriminate | repeat split | idtac].
    exists "HTTPS://example", "com". repeat split; first [discriminate | simpl; lia].
  - refine (proj1 (proj2 (@validateField_url Sample.platform
      (Sample.input "url" [] "example.c") VNull _ _)) _);
      first [reflexivity | discriminate | idtac].
    intros Hs. apply UrlFacts.urlPattern_shape in Hs. discriminate Hs.
Defined.

(** ** Numbers, lengths, and the reason of a verdict *)

Section MoreValidation.
Context `{Platform}.

Lemma number_not_checkable f : typeAttr f = "number" -> isCheckable f = false.
Proof. unfold isCheckable. intros ->. reflexivity. Qed.

Lemma typeChecks_number f r v :
  typeChecks f r "number" v =
    match check_number f r "number" v with
    | Some verdict => verdict
    | None => first_return [check_length f v; check_pattern f v] ok
    end.
Proof. unfold typeChecks. simpl. destruct (check_number f r "number" v); reflexivity. Qed.

Lemma check_number_unfold f r v :
  v <> "" ->
  check_number f r "number" v =
    if Number_isNaN (Number v) then Some (failed "format")
    else if match getAttribute f "min" with
            | Some m => Number_lt (Number v) (Number m)
            | None => false
            end
    then Some (failed "format")
    else if match getAttribute f "max" with
            | Some m => Number_lt (Number m) (Number v)
            | None => false
            end
    then Some (failed "format")
    else None.
Proof.
  intros Hv. unfold check_number. simpl streq at 1. cbv iota.
  apply streq_false in Hv. rewrite Hv. reflexivity.
Qed.

(** Before the length check every statement either falls through or returns
    the format verdict. *)
Lemma typeChecks_before_length f e :
  trim (value f) <> "" ->
  typeChecks f (isRequired f e) (typeAttr f) (trim (value f)) =
    failed "format" \/
  typeChecks f (isRequired f e) (typeAttr f) (trim (value f)) =
    first_return
      [check_length f (trim (value f)); check_pattern f (trim (value f))] ok.
Proof.
  intros Hv. unfold typeChecks. simpl.
  destruct (check_tel_cases (typeAttr f) (trim (value f))) as [-> | ->]; auto.
  destruct (check_email_cases f (typeAttr f) (trim (value f))) as [-> | ->]; auto.
  destruct (check_url_cases (typeAttr f) (trim (value f))) as [-> | ->]; auto.
  destruct (check_number_cases f (isRequired f e) (typeAttr f) _ Hv)
    as [-> | ->]; auto.
Qed.

End MoreValidation.

(** X3: for a field of type number whose trimmed value is not empty, a value
    that [Number] turns into NaN, one below a declared [min] and one above a
    declared [max] are each [{valid: false, reason: 'format'}]; a number
    within the declared bounds is valid when no length or pattern attribute
    is declared. *)
Theorem validateField_number `{Platform} (f : Element) (e : JsValue) :
  typeAttr f = "number" -> trim (value f) <> "" ->
  (Number_isNaN (Number (trim (value f))) = true ->
     validateField f e = mkVerdict false (Some "format")) /\
  (forall m, getAttribute f "min" = Some m ->
     Number_lt (Number (trim (value f))) (Number m) = true ->
     validateField f e = mkVerdict false (Some "format")) /\
  (forall m, getAttribute f "max" = Some m ->
     Number_lt (Number m) (Number (trim (value f))) = true ->
     validateField f e = mkVerdict false (Some "format")) /\
  (Number_isNaN (Number (trim (value f))) = false ->
   (forall m, getAttribute f "min" = Some m ->
      Number_lt (Number (trim (value f))) (Number m) = false) ->
   (forall m, getAttribute f "max" = Some m ->
      Number_lt (Number m) (Number (trim (value f))) = false) ->
   unconstrained f ->
     validateField f e = mkVerdict true None).
Proof.
  intros Ht Hv.
  rewrite (validateField_generic_nonempty f e (number_not_checkable f Ht) Hv).
  rewrite Ht, typeChecks_number, (check_number_unfold f _ _ Hv).
  split; [|split; [|split]].
  - intros ->. reflexivity.
  - intros m Hm Hlt. rewrite Hm, Hlt.
    destruct (Number_isNaN _); reflexivity.
  - intros m Hm Hlt. rewrite Hm, Hlt.
    destruct (Number_isNaN _); [reflexivity|].
    destruct (match getAttribute f "min" with Some _ => _ | None => _ end);
      reflexivity.
  - intros -> Hmin Hmax Hu.
    destruct (unconstrained_tail f (trim (value f)) Hu) as [-> ->].
    destruct (getAttribute f "min") as [m|]; [rewrite (Hmin m eq_refl)|];
      (destruct (getAttribute f "max") as [m'|]; [rewrite (Hmax m' eq_refl)|]);
      reflexivity.
Qed.

(** With [min="5"]: ["3"] is below the bound, ["5"] is valid; ["abc"] is not
    a number. *)
Lemma validateField_number_witness :
  @validateField Sample.platform (Sample.input "number" [("min", "5")] "3")
    VNull = mkVerdict false (Some "format") /\
  @validateField Sample.platform (Sample.input "number" [("min", "5")] "5")
    VNull = mkVerdict true None /\
  @validateField Sample.platform (Sample.input "number" [] "abc") VNull =
    mkVerdict false (Some "format").
Proof.
  split; [|split].
  - refine (proj1 (proj2 (@validateField_number Sample.platform
      (Sample.input "number" [("min", "5")] "3") VNull _ _)) "5" _ _);
      first [reflexivity | discriminate].
  - refine (proj2 (proj2 (proj2 (@validateField_number Sample.platform
      (Sample.input "number" [("min", "5")] "5") VNull _ _))) _ _ _ _);
      first [reflexivity | discriminate | repeat split; fail | idtac].
    intros m [= <-]. reflexivity.
  - refine (proj1 (@validateField_number Sample.platform
      (Sample.input "number" [] "abc") VNull _ _) _);
      first [reflexivity | discriminate].
Defined.

(** X4: whatever its type, a generic field whose trimmed value is not empty
    and is shorter than a declared [minlength], or longer than a declared
    [maxlength], is [{valid: false, reason: 'format'}]. *)
Theorem validateField_length `{Platform} (f : Element) (e : JsValue) :
  isCheckable f = false -> trim (value f) <> "" ->
  (forall m, getAttribute f "minlength" = Some m ->
     Number_lt (Number_of_length (String.length (trim (value f)))) (Number m)
       = true ->
     validateField f e = mkVerdict false (Some "format")) /\
  (forall m, getAttribute f "maxlength" = Some m ->
     Number_lt (Number m) (Number_of_length (String.length (trim (value f))))
       = true ->
     validateField f e = mkVerdict false (Some "format")).
Proof.
  intros Hc Hv. rewrite (validateField_generic_nonempty f e Hc Hv).
  destruct (typeChecks_before_length f e Hv) as [-> | ->]; [auto|].
  unfold check_length. split.
  - intros m Hm Hlt. rewrite Hm, Hlt. reflexivity.
  - intros m Hm Hlt. rewrite Hm, Hlt.
    destruct (match getAttribute f "minlength" with Some _ => _ | None => _ end);
      reflexivity.
Qed.

(** A text of two characters under [minlength="3"], and an e-mail address of
    seven under [maxlength="5"]. *)
Lemma validateField_length_witness :
  @validateField Sample.platform (Sample.input "text" [("minlength", "3")] "ab")
    VNull = mkVerdict false (Some "format") /\
  @validateField Sample.platform
    (Sample.input "email" [("maxlength", "5")] "a@b.com") VNull =
    mkVerdict false (Some "format").
Proof.
  split.
  - refine (proj1 (@validateField_length Sample.platform
      (Sample.input "text" [("minlength", "3")] "ab") VNull _ _) "3" _ _);
      first [reflexivity | discriminate].
  - refine (proj2 (@validateField_length Sample.platform
      (Sample.input "email" [("maxlength", "5")] "a@b.com") VNull _ _) "5" _ _);
      first [reflexivity | discriminate].
Defined.

(** X5: [validateField] gives the reason 'required' exactly to a required
    field that is empty (a generic field whose value trims to nothing) or
    unchecked (a checkbox or radio), and the reason 'format' only to a
    generic field whose trimmed value is not empty. *)
Theorem validateField_reason `{Platform} (f : Element) (e : JsValue) :
  (reason (validateField f e) = Some "required" <->
     isRequired f e = true /\
     if isCheckable f then checked f = false else trim (value f) = "") /\
  (reason (validateField f e) = Some "format" ->
     isCheckable f = false /\ trim (value f) <> "").
Proof.
  destruct (isCheckable f) eqn:Hc.
  - rewrite (validateField_checkable f e Hc).
    destruct (isRequired f e), (checked f); simpl;
      repeat split; intros; try discriminate; try tauto;
      destruct_and?; discriminate.
  - destruct (decide (trim (value f) = "")) as [Hv | Hv].
    + rewrite (validateField_generic_empty f e Hc Hv).
      destruct (isRequired f e); simpl;
        repeat split; intros; try discriminate; try tauto;
        destruct_and?; discriminate.
    + rewrite (validateField_generic_nonempty f e Hc Hv).
      destruct (typeChecks_cases f e Hv) as [-> | ->]; simpl;
        repeat split; intros; try discriminate; try tauto;
        destruct_and?; try discriminate; contradiction.
Qed.

(** A text field holding ["12a"] under type tel is refused for its format:
    it is generic and not empty. *)
Lemma validateField_reason_witness :
  isCheckable (Sample.input "tel" [] "12a") = false /\
  trim (value (Sample.input "tel" [] "12a")) <> "".
Proof.
  refine (proj2 (@validateField_reason Sample.platform
    (Sample.input "tel" [] "12a") VNull) _). reflexivity.
Defined.

(** ** White space *)

Module TrimFacts.

Lemma trimStart_blank s : sforall isWhiteSpace s = true -> trimStart s = "".
Proof.
  induction s as [|c s IH]; [reflexivity|]. simpl.
  intros Hs. apply andb_true_iff in Hs as [-> Hs]. auto.
Qed.

Lemma trimStart_blank_inv s :
  sforall isWhiteSpace (trimStart s) = true -> sforall isWhiteSpace s = true.
Proof.
  induction s as [|c s IH]; [reflexivity|]. simpl.
  destruct (isWhiteSpace c) eqn:Ec; simpl; [auto|].
  rewrite Ec. discriminate.
Qed.

Lemma trimEnd_empty s : trimEnd s = "" -> sforall isWhiteSpace s = true.
Proof.
  induction s as [|c s IH]; [reflexivity|]. simpl.
  destruct (isWhiteSpace c); simpl; [|discriminate].
  destruct (trimEnd s); [auto | discriminate].
Qed.

Lemma trim_empty s : trim s = "" <-> sforall isWhiteSpace s = true.
Proof.
  unfold trim. split.
  - intros Ht. apply trimStart_blank_inv, trimEnd_empty, Ht.
  - intros Hs. rewrite trimStart_blank by exact Hs. reflexivity.
Qed.

Lemma trimEnd_idem s : trimEnd (trimEnd s) = trimEnd s.
Proof.
  induction s as [|c s IH]; [reflexivity|]. simpl.
  destruct (isWhiteSpace c && isEmpty (trimEnd s)) eqn:E; [reflexivity|].
  simpl. rewrite IH, E. reflexivity.
Qed.

Lemma trimStart_fixed s :
  match s with String c _ => isWhiteSpace c = false | EmptyString => True end ->
  trimStart s = s.
Proof. destruct s as [|c s]; [reflexivity|]. simpl. intros ->. reflexivity. Qed.

Lemma trimStart_head s :
  match trimStart s with
  | String c _ => isWhiteSpace c = false
  | EmptyString => True
  end.
Proof.
  induction s as [|c s IH]; [exact I|]. simpl.
  destruct (isWhiteSpace c) eqn:E; [exact IH | exact E].
Qed.

Lemma trimEnd_head s :
  match s with String c _ => isWhiteSpace c = false | EmptyString => True end ->
  match trimEnd s with
  | String c _ => isWhiteSpace c = false
  | EmptyString => True
  end.
Proof.
  destruct s as [|c s]; [auto|]. simpl. intros E. rewrite E. simpl. exact E.
Qed.

Lemma trim_idem s : trim (trim s) = trim s.
Proof.
  unfold trim.
  rewrite (trimStart_fixed (trimEnd (trimStart s)))
    by apply trimEnd_head, trimStart_head.
  apply trimEnd_idem.
Qed.

End TrimFacts.

(** X6: [validateField] reads the value only after trimming it: the verdict
    of a field is the verdict of the same field holding the trimmed value,
    and a value made of white space only (the trimmed value is empty exactly
    then) gets the verdict of the empty value. *)
Theorem validateField_trimmed `{Platform} (f : Element) (e : JsValue) :
  validateField (with_value (trim (value f)) f) e = validateField f e /\
  (trim (value f) = "" <-> sforall isWhiteSpace (value f) = true) /\
  (sforall isWhiteSpace (value f) = true ->
     validateField f e = validateField (with_value "" f) e).
Proof.
  assert (Hsame : forall v, trim v = trim (value f) ->
            validateField (with_value v f) e = validateField f e).
  { intros v Hv. unfold validateField, isRequired, typeAttr, hasAttribute,
      getAttribute. simpl. rewrite Hv. reflexivity. }
  split; [apply Hsame, TrimFacts.trim_idem|].
  split; [apply TrimFacts.trim_empty|].
  intros Hs. symmetry. apply Hsame.
  apply TrimFacts.trim_empty in Hs. rewrite Hs. reflexivity.
Qed.

(** A required text field holding blanks and a tab is treated as empty. *)
Lemma validateField_trimmed_witness :
  @validateField Sample.platform
    (Sample.input "text" [("required", "")] "  	 ") VNull =
  @validateField Sample.platform
    (with_value "" (Sample.input "text" [("required", "")] "  	 ")) VNull.
Proof.
  refine (proj2 (proj2 (@validateField_trimmed Sample.platform
    (Sample.input "text" [("required", "")] "  	 ") VNull)) _).
  reflexivity.
Defined.

(** X7: for a field of type email whose trimmed value is not empty and that
    declares no length or pattern attribute, the verdict is valid exactly
    when the value has the shape [local@domain.tld] and, if the field is
    flagged business-only, the lower-cased text after the last [@] is not on
    the list; so the list is matched whole and without regard to case: under
    the flag [x@GMAIL.COM] is refused and [x@mail.gmail.com] is accepted. *)
Theorem validateField_email_exact `{Platform} (f : Element) (e : JsValue) :
  typeAttr f = "email" -> trim (value f) <> "" -> unconstrained f ->
  (validateField f e = mkVerdict true None <->
     emailShape (trim (value f)) /\
     (hasAttribute f "data-business-email-only" = true ->
      includes freeDomains (emailDomain (trim (value f))) = false)) /\
  (hasAttribute f "data-business-email-only" = true ->
     (trim (value f) = "x@GMAIL.COM" ->
        validateField f e = mkVerdict false (Some "format")) /\
     (trim (value f) = "x@mail.gmail.com" ->
        validateField f e = mkVerdict true None)).
Proof.
  intros Ht Hv Hu.
  rewrite (validateField_generic_nonempty f e (email_not_checkable f Ht) Hv).
  rewrite Ht, typeChecks_email.
  destruct (unconstrained_tail f (trim (value f)) Hu) as [Hl Hp].
  unfold first_return. rewrite Hl, Hp.
  assert (Hiff : match check_email f "email" (trim (value f)) with
                 | Some verdict => verdict
                 | None => ok
                 end = mkVerdict true None <->
                 emailShape (trim (value f)) /\
                 (hasAttribute f "data-business-email-only" = true ->
                  includes freeDomains (emailDomain (trim (value f))) = false)).
  { split.
    - destruct (check_email f "email" (trim (value f))) as [verdict|] eqn:Ec.
      + destruct (check_email_cases f "email" (trim (value f))) as [E | E];
          rewrite Ec in E; [discriminate|].
        injection E as ->. discriminate.
      + intros _. destruct (check_email_passes f _ Ec) as [Hre Hallow].
        split; [apply EmailFacts.emailPattern_shape, Hre | exact Hallow].
    - intros [Hs Hallow]. apply EmailFacts.emailPattern_shape in Hs.
      rewrite (check_email_accepts f _ Hs Hallow). reflexivity. }
  split; [exact Hiff|].
  intros Hflag. split.
  - intros Hx. rewrite check_email_denied; [reflexivity | exact Hflag|].
    rewrite Hx. reflexivity.
  - intros Hx. apply Hiff. rewrite Hx. split.
    + exists "x", "mail.gmail", "com". repeat split; discriminate.
    + intros _. reflexivity.
Qed.

(** A flagged field holding ["x@mail.gmail.com"] is valid. *)
Lemma validateField_email_exact_witness :
  @validateField Sample.platform
    (Sample.input "email" [("data-business-email-only", "")] "x@mail.gmail.com")
    VNull = mkVerdict true None.
Proof.
  refine (proj2 (proj2 (@validateField_email_exact Sample.platform
    (Sample.input "email" [("data-business-email-only", "")] "x@mail.gmail.com")
    VNull _ _ _) _) _); first [reflexivity | discriminate | repeat split].
Defined.

(** ** More on the error presenter *)

Lemma capture_default s w :
  s < length (elements w) ->
  dataset_defaultMessage (getElement (capture s w) s) = Some (capturedDefault w s).
Proof.
  intros Hs. unfold capture, capturedDefault.
  destruct (dataset_defaultMessage (getElement w s)) as [d|] eqn:Hd; simpl or_empty.
  - destruct (isEmpty d); [|exact Hd].
    read_after_write. unfold dataset_defaultMessage, getAttribute. simpl.
    apply lookup_insert_eq.
  - simpl. read_after_write. unfold dataset_defaultMessage, getAttribute. simpl.
    apply lookup_insert_eq.
Qed.

Lemma attributes_updateWorld_classList i g w j :
  attributes (getElement (updateWorld i (with_classList g) w) j) =
    attributes (getElement w j).
Proof. read_after_write; reflexivity. Qed.

Lemma second_error_capture s w j :
  getAttribute (getElement (capture s w) j) "data-second-error" =
    getAttribute (getElement w j) "data-second-error".
Proof.
  destruct (inputs_eq_capture s w j) as (_ & _ & _ & _ & Ha).
  unfold getAttribute. symmetry. apply Ha. discriminate.
Qed.

Lemma shown_slot_visible field s reason w :
  s < length (elements w) ->
  classList_contains (getElement (shown field s reason w) s) "is-visible" = true.
Proof.
  intros Hs. pose proof (length_capture s w) as Hlen.
  unfold shown. cbv zeta. read_after_write;
    rewrite ?classList_contains_with_textContent, ?classList_contains_add;
    simpl; rewrite ?orb_true_r; try reflexivity;
    exfalso; naive_solver lia.
Qed.

Lemma getAttribute_updateWorld_classList i g w j n :
  getAttribute (getElement (updateWorld i (with_classList g) w) j) n =
    getAttribute (getElement w j) n.
Proof. unfold getAttribute. rewrite attributes_updateWorld_classList. reflexivity. Qed.

Lemma dataset_updateWorld_classList i g w j :
  dataset_defaultMessage (getElement (updateWorld i (with_classList g) w) j) =
    dataset_defaultMessage (getElement w j).
Proof. apply getAttribute_updateWorld_classList. Qed.

Lemma shown_slot_text field s reason w :
  s < length (elements w) ->
  textContent (getElement (shown field s reason w) s) =
    shownMessage w field s reason.
Proof.
  intros Hs. pose proof (length_capture s w) as Hlen.
  unfold shown, shownMessage. cbv zeta.
  rewrite getElement_updateWorld, !length_updateWorld.
  case_decide as Hd; [|exfalso; apply Hd; split; [reflexivity | lia]].
  rewrite !getAttribute_updateWorld_classList, !dataset_updateWorld_classList.
  rewrite second_error_capture, (capture_default s w Hs). reflexivity.
Qed.

(** X8: shown on an error element, an error marks the field invalid, makes
    the element visible, and puts into it the field's [data-second-error]
    when the reason is 'format' and the field has that attribute, else the
    default message (so 'required' always shows the default); the default
    is stored on the element. *)
Theorem setFieldErrorState_shows (field s : nat) (reason : option string)
    (w : World) :
  field < length (elements w) -> s < length (elements w) ->
  exists w',
    setFieldErrorState field (VElement s) true reason w = (w', Normal tt) /\
    classList_contains (getElement w' field) "is-invalid" = true /\
    classList_contains (getElement w' s) "is-visible" = true /\
    textContent (getElement w' s) = shownMessage w field s reason /\
    dataset_defaultMessage (getElement w' s) = Some (capturedDefault w s).
Proof.
  intros Hf Hs.
  destruct (setFieldErrorState_presented field (VElement s) true reason w)
    as (w' & Hrun & Hp); [discriminate|].
  exists w'. split; [exact Hrun|].
  rewrite setFieldErrorState_show_element in Hrun. injection Hrun as <-.
  split; [apply (presented_field _ _ _ _ Hp Hf)|].
  split; [apply shown_slot_visible, Hs|].
  split; [apply shown_slot_text, Hs|].
  rewrite shown_slot_default. apply capture_default, Hs.
Qed.

(** A required error on a field that declares a second message still shows
    the slot's own text. *)
Lemma setFieldErrorState_shows_witness :
  exists w',
    setFieldErrorState 0 (VElement 1) true (Some "required")
      (Sample.page
         [ Sample.input "email" [("data-second-error", "Not an address")] "";
           Sample.slot "email" "This field is required" [] ]) =
      (w', Normal tt) /\
    textContent (getElement w' 1) = "This field is required".
Proof.
  destruct (setFieldErrorState_shows 0 1 (Some "required")
    (Sample.page
       [ Sample.input "email" [("data-second-error", "Not an address")] "";
         Sample.slot "email" "This field is required" [] ]))
    as (w' & Hrun & _ & _ & Ht & _); [simpl; lia | simpl; lia|].
  exists w'. split; [exact Hrun | exact Ht].
Defined.

(** X9: on a slot that has a text of its own and no stored default yet,
    whatever the first presentation shows, a clearing presentation after it
    puts the original text back, hides the slot and unmarks the field. *)
Theorem setFieldErrorState_round_trip (field s : nat) (hasError : bool)
    (reason reason' : option string) (w : World) :
  s < length (elements w) ->
  dataset_defaultMessage (getElement w s) = None ->
  textContent (getElement w s) <> "" ->
  exists w1 w2,
    setFieldErrorState field (VElement s) hasError reason w = (w1, Normal tt) /\
    setFieldErrorState field (VElement s) false reason' w1 = (w2, Normal tt) /\
    textContent (getElement w2 s) = textContent (getElement w s) /\
    classList_contains (getElement w2 s) "is-visible" = false /\
    classList_contains (getElement w2 field) "is-invalid" = false.
Proof.
  intros Hs Hnone Htext.
  destruct (setFieldErrorState_first_capture field s hasError reason w Hs Hnone)
    as (w1 & Hrun1 & Hstored).
  destruct (setFieldErrorState_default_kept field s false reason' w1 _
              Hstored Htext) as (w2 & Hrun2 & _ & Hback).
  exists w1, w2. split; [exact Hrun1|]. split; [exact Hrun2|].
  split; [apply Hback; reflexivity|].
  rewrite setFieldErrorState_clear_element in Hrun2. injection Hrun2 as <-.
  split; [apply cleared_slot_hidden | apply cleared_field_valid].
Qed.

(** A format error with a second message, then a clearing. *)
Lemma setFieldErrorState_round_trip_witness :
  exists w1 w2,
    setFieldErrorState 0 (VElement 1) true (Some "format")
      (Sample.page
         [ Sample.input "email" [("data-second-error", "Not an address")] "x";
           Sample.slot "email" "This field is required" [] ]) =
      (w1, Normal tt) /\
    setFieldErrorState 0 (VElement 1) false None w1 = (w2, Normal tt) /\
    textContent (getElement w2 1) = "This field is required".
Proof.
  destruct (setFieldErrorState_round_trip 0 1 true (Some "format") None
    (Sample.page
       [ Sample.input "email" [("data-second-error", "Not an address")] "x";
         Sample.slot "email" "This field is required" [] ]))
    as (w1 & w2 & H1 & H2 & Ht & _);
    [simpl; lia | reflexivity | discriminate|].
  exists w1, w2. auto.
Defined.

(** X10: without an error element the presenter returns normally and writes
    nothing but the field's invalid marker: every other element, and the
    field's attributes, value, text and other classes, stay as they were. *)
Theorem setFieldErrorState_without_slot (field : nat) (errorEl : JsValue)
    (hasError : bool) (reason : option string) (w : World) :
  truthy errorEl = false ->
  exists w',
    setFieldErrorState field errorEl hasError reason w = (w', Normal tt) /\
    (forall j, j <> field -> getElement w' j = getElement w j) /\
    attributes (getElement w' field) = attributes (getElement w field) /\
    value (getElement w' field) = value (getElement w field) /\
    textContent (getElement w' field) = textContent (getElement w field) /\
    (forall cls, cls <> "is-invalid" ->
       classList_contains (getElement w' field) cls =
         classList_contains (getElement w field) cls) /\
    (field < length (elements w) ->
       classList_contains (getElement w' field) "is-invalid" = hasError).
Proof.
  intros Ht.
  assert (Hrun : setFieldErrorState field errorEl hasError reason w =
    (updateWorld field
       (with_classList (fun c => if hasError then c ∪ {["is-invalid"]}
                                  else c ∖ {["is-invalid"]})) w, Normal tt)).
  { destruct errorEl, hasError; try discriminate Ht; reflexivity. }
  eexists. split; [exact Hrun|].
  split; [|split; [|split; [|split; [|split]]]].
  - intros j Hj. rewrite getElement_updateWorld.
    case_decide as Hd; [destruct Hd as [Hd _]; congruence | reflexivity].
  - rewrite getElement_updateWorld. case_decide; reflexivity.
  - rewrite getElement_updateWorld. case_decide; reflexivity.
  - rewrite getElement_updateWorld. case_decide; reflexivity.
  - intros cls Hcls. rewrite getElement_updateWorld.
    case_decide; [|reflexivity].
    apply streq_false in Hcls.
    destruct hasError.
    + rewrite classList_contains_add.
      rewrite (proj2 (streq_false "is-invalid" cls)); [apply orb_false_r|].
      apply streq_false in Hcls. congruence.
    + rewrite classList_contains_remove.
      rewrite (proj2 (streq_false "is-invalid" cls)); [apply andb_true_r|].
      apply streq_false in Hcls. congruence.
  - intros Hf. pose proof (marked_set_invalid field hasError w field) as Hm.
    unfold marked in Hm. rewrite Hm.
    case_decide as Hd; [reflexivity|]. exfalso. apply Hd. auto.
Qed.

(** A field without an error element, shown invalid. *)
Lemma setFieldErrorState_without_slot_witness :
  exists w',
    setFieldErrorState 0 VUndefined true (Some "required")
      (Sample.page [Sample.input "text" [("required", "")] ""]) =
      (w', Normal tt) /\
    classList_contains (getElement w' 0) "is-invalid" = true.
Proof.
  destruct (setFieldErrorState_without_slot 0 VUndefined true (Some "required")
    (Sample.page [Sample.input "text" [("required", "")] ""]) eq_refl)
    as (w' & Hrun & _ & _ & _ & _ & _ & Hm).
  exists w'. split; [exact Hrun|]. apply Hm. simpl. lia.
Defined.

(** ** More on the error map *)

Lemma firstSlot_some w els k el :
  firstSlot w els k = Some el -> In el els /\ slotKey w el = k.
Proof.
  unfold firstSlot. intros Hf. apply List.find_some in Hf as [Hin Hk].
  apply streq_true in Hk. auto.
Qed.

Lemma slotKey_key_chars w el : sforall isKeyChar (slotKey w el) = true.
Proof. apply normalizeKey_key_chars. Qed.

(** X11: the map [buildErrorMap] returns holds nothing but discovered error
    elements, each under its own normalized key: an entry's key is not
    empty, is not [constructor], is made of [a-z0-9] only, and its element
    is the first one of the form with that key. *)
Theorem buildErrorMap_entries (w : World) (k : string) (el : nat) :
  exists w' map,
    buildErrorMap w = (w', Normal map) /\
    (map !! k = Some el <->
       k <> "" /\ k <> "constructor" /\
       firstSlot w
         (querySelectorAll (fun e => hasAttribute e "data-error-text") w) k =
         Some el) /\
    (map !! k = Some el ->
       In el (querySelectorAll (fun e => hasAttribute e "data-error-text") w) /\
       slotKey w el = k /\ sforall isKeyChar k = true).
Proof.
  eexists _, _. split; [apply buildErrorMap_run|].
  set (els := querySelectorAll _ w).
  assert (Hiff : fold_left (fun m e => register m (slotKey w e) e) els ∅ !! k
                   = Some el <->
                 k <> "" /\ k <> "constructor" /\ firstSlot w els k = Some el).
  { rewrite fold_register_lookup, lookup_empty.
    destruct (isEmpty k) eqn:Ee; simpl.
    - apply isEmpty_true in Ee. split; [discriminate | tauto].
    - apply isEmpty_false in Ee.
      destruct (JsObject.inherited k) eqn:Ei.
      + split; [discriminate|]. intros (_ & Hc & Hf).
        destruct (firstSlot_some _ _ _ _ Hf) as [_ <-].
        exfalso. apply Hc. apply inherited_key; [apply slotKey_key_chars | exact Ei].
      + split; [|tauto]. intros Hf. split; [exact Ee|]. split; [|exact Hf].
        intros ->. discriminate Ei. }
  split; [exact Hiff|].
  intros Hm. apply Hiff in Hm as (_ & _ & Hf).
  destruct (firstSlot_some _ _ _ _ Hf) as [Hin Hk].
  split; [exact Hin|]. split; [exact Hk|]. rewrite <- Hk. apply slotKey_key_chars.
Qed.

(** On [constructor_slots_page] the entry for [email] is the third element,
    whose attribute is ["E-mail"]. *)
Lemma buildErrorMap_entries_witness :
  exists w' map,
    buildErrorMap constructor_slots_page = (w', Normal map) /\
    slotKey constructor_slots_page 2 = "email".
Proof.
  destruct (buildErrorMap_entries constructor_slots_page "email" 2)
    as (w' & map & Hrun & Hiff & Hin).
  exists w', map. split; [exact Hrun|].
  apply Hin. apply Hiff. repeat split; first [discriminate | reflexivity].
Defined.

Lemma visibility_apart_refl e : visibility_apart e e.
Proof. unfold visibility_apart. auto 10. Qed.

Lemma visibility_apart_trans e1 e2 e3 :
  visibility_apart e1 e2 -> visibility_apart e2 e3 -> visibility_apart e1 e3.
Proof.
  unfold visibility_apart.
  intros (? & ? & ? & ? & ? & ? & H12) (? & ? & ? & ? & ? & ? & H23).
  repeat split; try congruence. intros cls Hc. rewrite H23, H12; auto.
Qed.

Lemma visibility_apart_hide w el j :
  visibility_apart (getElement w j) (getElement (hide w el) j).
Proof.
  unfold hide. destruct (isEmpty _); [apply visibility_apart_refl|].
  rewrite getElement_updateWorld.
  case_decide as Hd; [destruct Hd as [<- _]|apply visibility_apart_refl].
  unfold visibility_apart. simpl. repeat split.
  intros cls Hc. rewrite classList_contains_remove.
  rewrite (proj2 (streq_false "is-visible" cls)); [apply andb_true_r | congruence].
Qed.

Lemma visibility_apart_fold_hide els : forall w j,
  visibility_apart (getElement w j) (getElement (fold_left hide els w) j).
Proof.
  induction els as [|el els IH]; intros w j; [apply visibility_apart_refl|].
  simpl. eapply visibility_apart_trans; [apply visibility_apart_hide | apply IH].
Qed.

Lemma length_fold_hide els : forall w,
  length (elements (fold_left hide els w)) = length (elements w).
Proof.
  induction els as [|el els IH]; intros w; [reflexivity|].
  simpl. rewrite IH. apply length_hide.
Qed.

Lemma event_fold_hide els : forall w,
  defaultPrevented (fold_left hide els w) = defaultPrevented w /\
  propagationStopped (fold_left hide els w) = propagationStopped w /\
  focused (fold_left hide els w) = focused w.
Proof.
  induction els as [|el els IH]; intros w; [auto|].
  simpl. destruct (IH (hide w el)) as (-> & -> & ->).
  unfold hide. destruct (isEmpty _); auto.
Qed.

(** X12: [buildErrorMap] writes nothing but the class [is-visible], and only
    takes it away: the page keeps its length, the event and the focus; every
    element keeps its tag, type, attributes, value, checked state, text and
    every other class; and an element visible afterwards was visible
    before. *)
Theorem buildErrorMap_frame (w : World) (j : nat) :
  exists w' map,
    buildErrorMap w = (w', Normal map) /\
    length (elements w') = length (elements w) /\
    (defaultPrevented w' = defaultPrevented w /\
     propagationStopped w' = propagationStopped w /\
     focused w' = focused w) /\
    visibility_apart (getElement w j) (getElement w' j) /\
    (classList_contains (getElement w' j) "is-visible" = true ->
     classList_contains (getElement w j) "is-visible" = true).
Proof.
  eexists _, _. split; [apply buildErrorMap_run|].
  split; [apply length_fold_hide|].
  split; [apply event_fold_hide|].
  split; [apply visibility_apart_fold_hide | apply visible_fold_hide].
Qed.

(** On [visible_slots_page] the second element, left visible, was visible
    before. *)
Lemma buildErrorMap_frame_witness :
  classList_contains (getElement visible_slots_page 1) "is-visible" = true.
Proof.
  destruct (buildErrorMap_frame visible_slots_page 1)
    as (w' & map & Hrun & _ & _ & _ & Hv).
  apply Hv. rewrite buildErrorMap_run in Hrun. injection Hrun as <- _.
  reflexivity.
Defined.

Lemma querySelectorAll_ext p w w' :
  length (elements w') = length (elements w) ->
  (forall j, p (getElement w' j) = p (getElement w j)) ->
  querySelectorAll p w' = querySelectorAll p w.
Proof.
  intros Hl Hp. unfold querySelectorAll. rewrite Hl.
  induction (seq 0 (length (elements w))) as [|i l IH]; [reflexivity|].
  simpl. rewrite Hp, IH. reflexivity.
Qed.

Lemma errorEls_fold_hide els w :
  querySelectorAll (fun e => hasAttribute e "data-error-text")
    (fold_left hide els w) =
  querySelectorAll (fun e => hasAttribute e "data-error-text") w.
Proof.
  apply querySelectorAll_ext; [apply length_fold_hide|].
  intros j. destruct (visibility_apart_fold_hide els w j) as (_ & _ & Ha & _).
  unfold hasAttribute. rewrite Ha. reflexivity.
Qed.

Lemma fold_register_ext (k k' : nat -> string) els : forall m : gmap string nat,
  (forall el, k el = k' el) ->
  fold_left (fun m el => register m (k el) el) els m =
  fold_left (fun m el => register m (k' el) el) els m.
Proof.
  induction els as [|el els IH]; intros m Hk; [reflexivity|].
  simpl. rewrite Hk. apply IH, Hk.
Qed.

Lemma updateWorld_fixed i f w :
  f (getElement w i) = getElement w i -> updateWorld i f w = w.
Proof.
  intros Hf. destruct w as [els dp ps fo]. unfold updateWorld, getElement in *.
  simpl in *. f_equal.
  apply list_eq. intros j. rewrite list_lookup_alter.
  case_decide as Hd; [subst j|reflexivity].
  destruct (els !! i) as [x|] eqn:Hx; [|reflexivity].
  simpl. f_equal. rewrite (list_lookup_total_correct _ _ _ Hx) in Hf. exact Hf.
Qed.

Lemma with_classList_fixed g e :
  g (classList e) = classList e -> with_classList g e = e.
Proof. destruct e. unfold with_classList. simpl. intros ->. reflexivity. Qed.

Lemma hide_fixed w el :
  classList_contains (getElement w el) "is-visible" = false -> hide w el = w.
Proof.
  intros Hv. unfold hide. destruct (isEmpty _); [reflexivity|].
  apply updateWorld_fixed, with_classList_fixed.
  unfold classList_contains in Hv. apply bool_decide_eq_false in Hv.
  set_solver.
Qed.

Lemma fold_left_fixed {A B : Type} (f : A -> B -> A) (l : list B) (x : A) :
  (forall b, In b l -> f x b = x) -> fold_left f l x = x.
Proof.
  induction l as [|b l IH]; intros Hf; [reflexivity|].
  simpl. rewrite (Hf b) by (left; reflexivity).
  apply IH. intros b' Hb. apply Hf. right. exact Hb.
Qed.

(** X13: [buildErrorMap] is an idempotent reset: run again on the page it
    left, it returns the same map and leaves that page as it is. *)
Theorem buildErrorMap_idempotent (w : World) :
  exists w' map,
    buildErrorMap w = (w', Normal map) /\
    buildErrorMap w' = (w', Normal map).
Proof.
  eexists _, _. split; [apply buildErrorMap_run|].
  set (els := querySelectorAll (fun e => hasAttribute e "data-error-text") w).
  rewrite buildErrorMap_run. rewrite errorEls_fold_hide. fold els.
  f_equal.
  - apply fold_left_fixed. intros el Hel.
    destruct (isEmpty (slotKey w el)) eqn:Ek.
    + unfold hide. rewrite slotKey_fold_hide, Ek. reflexivity.
    + apply hide_fixed, fold_hide_hidden; [exact Hel|].
      apply isEmpty_false. exact Ek.
  - f_equal. apply fold_register_ext. intros el. apply slotKey_fold_hide.
Qed.

(** X14: after [setupForm], the error element [handleField] looks up for a
    field is the one matched on the page before: nothing for a field with an
    empty key, the first element of the form whose [data-error-text]
    normalizes to the field's key, [undefined] when there is none, and the
    inherited built-in for the key [constructor]; the controller's fields
    are the inputs, text areas and selects of the form. *)
Theorem setupForm_lookup `{Platform} (w : World) (field : Element) :
  exists w' ctl,
    setupForm w = (w', Normal ctl) /\
    lookupErrorEl (errorMap ctl) field = matchedSlot w field /\
    fields ctl = querySelectorAll isField w.
Proof.
  unfold setupForm. rewrite bind_run, buildErrorMap_run.
  eexists _, _. split; [reflexivity|]. simpl. split.
  - unfold lookupErrorEl, matchedSlot, JsObject.get. cbv zeta.
    destruct (isEmpty (getFieldKey field)) eqn:Ee; [reflexivity|].
    rewrite fold_register_lookup, lookup_empty, Ee. simpl.
    destruct (streq (getFieldKey field) "constructor") eqn:Ec.
    + apply streq_true in Ec. rewrite Ec. reflexivity.
    + assert (Hi : JsObject.inherited (getFieldKey field) = false).
      { apply not_true_is_false. intros Hi.
        apply inherited_key in Hi; [|apply normalizeKey_key_chars].
        apply streq_false in Ec. contradiction. }
      rewrite Hi. destruct (firstSlot w _ (getFieldKey field)); reflexivity.
  - apply querySelectorAll_ext; [apply length_fold_hide|].
    intros j. destruct (visibility_apart_fold_hide
      (querySelectorAll (fun e => hasAttribute e "data-error-text") w) w j)
      as (Ht & _).
    unfold isField, localName. rewrite Ht. reflexivity.
Qed.

(** ** More on the form controller *)

Section ControllerFacts.
Context `{Platform}.

Lemma lookupErrorEl_constructor em el :
  em !! "constructor" = None -> getFieldKey el = "constructor" ->
  lookupErrorEl em el = VBuiltin "constructor".
Proof.
  intros Hem Hk. unfold lookupErrorEl, JsObject.get. rewrite Hk, Hem. reflexivity.
Qed.

Lemma handleField_run ctl field context w :
  handleField ctl field context w =
    (setFieldErrorState field (lookupErrorEl (errorMap ctl) (getElement w field))
       (hasErrorToShow (getElement w field)
          (if isEmpty context then "other" else context) (verdictOf ctl w field))
       (reason (verdictOf ctl w field)) ≫=
     fun _ => mret (valid (verdictOf ctl w field))) w.
Proof. reflexivity. Qed.

Lemma visibility_apart_inputs e e' : visibility_apart e e' -> inputs_eq e e'.
Proof.
  intros (Ht & Hy & Ha & Hv & Hc & _). unfold inputs_eq.
  split; [congruence|]. split; [congruence|]. split; [congruence|].
  split; [congruence|]. intros n _. rewrite Ha. reflexivity.
Qed.

End ControllerFacts.

(** X15: with a map that has no entry of its own for [constructor] (as every
    map [buildErrorMap] returns), [handleField] throws a TypeError, before
    writing anything, exactly for a field whose key is [constructor]; for any
    other field and any context it returns the verdict's [valid], leaves the
    event alone and changes nothing that validation reads, so that every
    field of the page keeps its verdict. *)
Theorem handleField_outcome `{Platform} (ctl : FormController) (field : nat)
    (context : string) (w : World) :
  errorMap ctl !! "constructor" = None ->
  (getFieldKey (getElement w field) = "constructor" ->
     handleField ctl field context w = (w, Throw "TypeError")) /\
  (getFieldKey (getElement w field) <> "constructor" ->
     exists w',
       handleField ctl field context w =
         (w', Normal (valid (verdictOf ctl w field))) /\
       (defaultPrevented w' = defaultPrevented w /\
        propagationStopped w' = propagationStopped w /\
        focused w' = focused w) /\
       (forall j, inputs_eq (getElement w j) (getElement w' j)) /\
       (forall g, verdictOf ctl w' g = verdictOf ctl w g)).
Proof.
  intros Hem. rewrite handleField_run. split.
  - intros Hk. rewrite (lookupErrorEl_constructor _ _ Hem Hk). reflexivity.
  - intros Hk.
    destruct (setFieldErrorState_presented field
                (lookupErrorEl (errorMap ctl) (getElement w field))
                (hasErrorToShow (getElement w field)
                   (if isEmpty context then "other" else context)
                   (verdictOf ctl w field))
                (reason (verdictOf ctl w field)) w
                (lookupErrorEl_not_builtin _ _ Hk)) as (w' & Hrun & Hp).
    exists w'. rewrite bind_run, Hrun. split; [reflexivity|].
    destruct Hp as [_ He Hi _ _]. split; [exact He|]. split; [exact Hi|].
    intros g. symmetry. apply verdictOf_inputs, Hi.
Qed.

(** On [constructor_field_page] a blur of the first field throws, a blur of
    the second returns its verdict. *)
Lemma handleField_outcome_witness :
  @handleField Sample.platform (mkController ∅ [0; 1]) 0 "blur"
    constructor_field_page = (constructor_field_page, Throw "TypeError") /\
  exists w',
    @handleField Sample.platform (mkController ∅ [0; 1]) 1 "blur"
      constructor_field_page = (w', Normal false).
Proof.
  split.
  - refine (proj1 (@handleField_outcome Sample.platform (mkController ∅ [0; 1])
      0 "blur" constructor_field_page _) _); reflexivity.
  - assert (Hem : errorMap (mkController ∅ [0; 1]) !! "constructor" = None)
      by apply lookup_empty.
    assert (Hk : getFieldKey (getElement constructor_field_page 1)
                 <> "constructor") by discriminate.
    destruct (proj2 (@handleField_outcome Sample.platform (mkController ∅ [0; 1])
      1 "blur" constructor_field_page Hem) Hk) as (w' & Hrun & _).
    exists w'. exact Hrun.
Defined.

(** X16: when no field of the form has the key [constructor],
    [validateForm] returns normally, and returns true exactly when every
    field that is not a button has a valid verdict; it does not stop at the
    first invalid field: every field that is not a button ends marked invalid
    exactly when its verdict is; so a required checkbox or radio that is not
    checked makes it return false. *)
Theorem validateForm_result `{Platform} (ctl : FormController) (w : World) :
  fields ctl = querySelectorAll isField w ->
  (forall f, In f (fields ctl) -> getFieldKey (getElement w f) <> "constructor") ->
  exists w',
    validateForm ctl w = (w', Normal (forallb (passes ctl w) (fields ctl))) /\
    (forall f, In f (fields ctl) -> isButton (getElement w f) = false ->
       marked w' f = negb (valid (verdictOf ctl w f))) /\
    (forall f, In f (fields ctl) -> isButton (getElement w f) = false ->
       isCheckable (getElement w f) = true ->
       isRequired (getElement w f)
         (lookupErrorEl (errorMap ctl) (getElement w f)) = true ->
       checked (getElement w f) = false ->
       forallb (passes ctl w) (fields ctl) = false).
Proof.
  intros Hfields Hkey.
  destruct (validateForm_loop_spec ctl (fields ctl) true w)
    as (w' & Hrun & [_ _ _ _ Hfs]).
  { rewrite Hfields. apply querySelectorAll_NoDup. }
  { intros f Hf. rewrite Hfields in Hf. eapply querySelectorAll_in_range, Hf. }
  { exact Hkey. }
  exists w'. split; [exact Hrun|]. split.
  - intros f Hf Hb. rewrite (Hfs f Hf), Hb. reflexivity.
  - intros f Hf Hb Hc Hr Hk.
    apply not_true_is_false. intros Hall.
    rewrite forallb_forall in Hall. specialize (Hall f Hf).
    unfold passes, verdictOf in Hall. rewrite Hb in Hall. simpl in Hall.
    rewrite (validateField_checkable _ _ Hc), Hr, Hk in Hall. discriminate.
Qed.

(** On [radio_group_page] the second radio is not checked. *)
Lemma validateForm_result_witness :
  exists w',
    @validateForm Sample.platform (mkController ∅ [0; 1]) radio_group_page =
      (w', Normal false).
Proof.
  assert (Hkey : forall f, In f (fields (mkController ∅ [0; 1])) ->
            getFieldKey (getElement radio_group_page f) <> "constructor").
  { intros f Hf. simpl in Hf. destruct Hf as [<- | [<- | []]]; discriminate. }
  destruct (@validateForm_result Sample.platform (mkController ∅ [0; 1])
    radio_group_page eq_refl Hkey) as (w' & Hrun & _ & Hradio).
  exists w'. rewrite Hrun.
  rewrite (Hradio 1) by first [reflexivity | simpl; tauto]. reflexivity.
Defined.

Section SubmitEndToEnd.
Context `{Platform}.

Lemma forallb_same {A : Type} (f g : A -> bool) (l : list A) :
  (forall x, f x = g x) -> forallb f l = forallb g l.
Proof.
  intros Hfg. induction l as [|x l IH]; [reflexivity|].
  simpl. rewrite Hfg, IH. reflexivity.
Qed.

Lemma registered_lookup w field :
  lookupErrorEl
    (fold_left (fun m el => register m (slotKey w el) el)
       (querySelectorAll (fun e => hasAttribute e "data-error-text") w) ∅)
    field = matchedSlot w field.
Proof.
  unfold lookupErrorEl, matchedSlot, JsObject.get. cbv zeta.
  destruct (isEmpty (getFieldKey field)) eqn:Ee; [reflexivity|].
  rewrite fold_register_lookup, lookup_empty, Ee. simpl.
  destruct (streq (getFieldKey field) "constructor") eqn:Ec.
  - apply streq_true in Ec. rewrite Ec. reflexivity.
  - assert (Hi : JsObject.inherited (getFieldKey field) = false).
    { apply not_true_is_false. intros Hi.
      apply inherited_key in Hi; [|apply normalizeKey_key_chars].
      apply streq_false in Ec. contradiction. }
    rewrite Hi. destruct (firstSlot w _ (getFieldKey field)); reflexivity.
Qed.

Lemma inputs_eq_matchedSlot w e e' :
  inputs_eq e e' -> matchedSlot w e = matchedSlot w e'.
Proof.
  intros He. unfold matchedSlot. rewrite (inputs_eq_getFieldKey e e' He).
  reflexivity.
Qed.

End SubmitEndToEnd.

Section SubmitTarget.
Context `{Platform}.

Lemma find_same {A : Type} (f g : A -> bool) (l : list A) :
  (forall x, In x l -> f x = g x) -> List.find f l = List.find g l.
Proof.
  induction l as [|x l IH]; intros Hfg; [reflexivity|].
  simpl. rewrite (Hfg x) by (left; reflexivity).
  rewrite IH; [reflexivity|]. intros y Hy. apply Hfg. right. exact Hy.
Qed.

(** What the submit listener calls, on a form none of whose fields has the
    key [constructor]. *)
Lemma onSubmit_calls (ctl : FormController) (w : World) :
  fields ctl = querySelectorAll isField w ->
  (forall f, In f (fields ctl) -> getFieldKey (getElement w f) <> "constructor") ->
  exists w',
    onSubmit ctl w = (w', Normal tt) /\
    (forallb (passes ctl w) (fields ctl) = true ->
       defaultPrevented w' = defaultPrevented w /\
       propagationStopped w' = propagationStopped w /\
       focused w' = focused w) /\
    (forallb (passes ctl w) (fields ctl) = false ->
       defaultPrevented w' = true /\ propagationStopped w' = true /\
       exists f0, focused w' = Some f0 /\
                  List.find (leftMarked ctl w) (fields ctl) = Some f0).
Proof.
  intros Hfields Hkey.
  destruct (validateForm_loop_spec ctl (fields ctl) true w)
    as (w1 & Hrun & [Hl He Hi Ho Hfs]).
  { rewrite Hfields. apply querySelectorAll_NoDup. }
  { intros f Hf. rewrite Hfields in Hf. eapply querySelectorAll_in_range, Hf. }
  { exact Hkey. }
  simpl andb in Hrun.
  assert (Hfind : List.find (marked w1) (fields ctl) =
                  List.find (leftMarked ctl w) (fields ctl)).
  { apply find_same. intros f Hf. apply Hfs, Hf. }
  unfold onSubmit, validateForm. rewrite bind_run, Hrun.
  destruct (forallb (passes ctl w) (fields ctl)) eqn:Hall; cbv beta iota.
  - exists w1. simpl. split; [reflexivity|].
    split; [intros _; exact He | discriminate].
  - change (negb false) with true. cbv iota.
    rewrite onSubmit_cancel_run, Hfind.
    destruct (List.find (leftMarked ctl w) (fields ctl)) as [f0|] eqn:Hleft.
    + eexists. split; [reflexivity|]. split; [discriminate|].
      intros _. simpl. repeat split. exists f0. split; reflexivity.
    + exfalso.
      assert (Hex : exists f, In f (fields ctl) /\ passes ctl w f = false).
      { clear -Hall. induction (fields ctl) as [|f fs IH]; [discriminate|].
        simpl in Hall. apply andb_false_iff in Hall as [Hf | Hr].
        - exists f. split; [left; reflexivity | exact Hf].
        - destruct (IH Hr) as (g & Hg & Hp). exists g. split; [right|]; assumption. }
      destruct Hex as (f & Hf & Hp). unfold passes in Hp.
      apply orb_false_iff in Hp as [Hb Hv].
      pose proof (List.find_none _ _ Hleft f Hf) as Hn.
      unfold leftMarked in Hn. rewrite Hb, Hv in Hn. discriminate.
Qed.

End SubmitTarget.

(** X17: set up and then submitted, a form none of whose fields has the key
    [constructor] is judged as its page says, each field that is not a
    button against the first error element whose key matches its own: when
    all these verdicts are valid the listener returns without touching the
    event or the focus; otherwise it calls [preventDefault],
    [stopPropagation] and then [focus()] on the first field, in document
    order, that [validateForm] left marked invalid: a field that is not a
    button and has an invalid verdict, or a button that carried the class
    already. *)
Theorem form_submit `{Platform} (w : World) :
  (forall f, In f (querySelectorAll isField w) ->
     getFieldKey (getElement w f) <> "constructor") ->
  exists w',
    (ctl ← setupForm; onSubmit ctl) w = (w', Normal tt) /\
    (forallb (fun f => isButton (getElement w f) ||
                       valid (validateField (getElement w f)
                                (matchedSlot w (getElement w f))))
       (querySelectorAll isField w) = true ->
     defaultPrevented w' = defaultPrevented w /\
     propagationStopped w' = propagationStopped w /\
     focused w' = focused w) /\
    (forallb (fun f => isButton (getElement w f) ||
                       valid (validateField (getElement w f)
                                (matchedSlot w (getElement w f))))
       (querySelectorAll isField w) = false ->
     defaultPrevented w' = true /\ propagationStopped w' = true /\
     exists f0,
       focused w' = Some f0 /\
       List.find
         (fun f =>
            if isButton (getElement w f) then marked w f
            else negb (valid (validateField (getElement w f)
                                (matchedSlot w (getElement w f)))))
         (querySelectorAll isField w) = Some f0).
Proof.
  intros Hkey.
  set (els := querySelectorAll (fun e => hasAttribute e "data-error-text") w).
  set (w1 := fold_left hide els w).
  set (ctl := mkController
                (fold_left (fun m el => register m (slotKey w el) el) els ∅)
                (querySelectorAll isField w1)).
  assert (Hsetup : setupForm w = (w1, Normal ctl)).
  { unfold setupForm. rewrite bind_run, buildErrorMap_run. reflexivity. }
  assert (Hin : forall j, inputs_eq (getElement w j) (getElement w1 j)).
  { intros j. apply visibility_apart_inputs, visibility_apart_fold_hide. }
  assert (Hfs : querySelectorAll isField w1 = querySelectorAll isField w).
  { apply querySelectorAll_ext; [apply length_fold_hide|].
    intros j. destruct (Hin j) as (Ht & _). unfold isField, localName.
    rewrite Ht. reflexivity. }
  assert (Hverdict : forall f, verdictOf ctl w1 f =
            validateField (getElement w f) (matchedSlot w (getElement w f))).
  { intros f. unfold verdictOf. simpl errorMap. rewrite registered_lookup.
    rewrite <- (inputs_eq_matchedSlot w _ _ (Hin f)).
    symmetry. apply inputs_eq_validateField, Hin. }
  assert (Hpasses : forall f, passes ctl w1 f =
            isButton (getElement w f) ||
            valid (validateField (getElement w f) (matchedSlot w (getElement w f)))).
  { intros f. unfold passes. rewrite Hverdict, <- (inputs_eq_isButton _ _ (Hin f)).
    reflexivity. }
  assert (Hleft : forall f, leftMarked ctl w1 f =
            if isButton (getElement w f) then marked w f
            else negb (valid (validateField (getElement w f)
                                (matchedSlot w (getElement w f))))).
  { intros f. unfold leftMarked.
    rewrite Hverdict, <- (inputs_eq_isButton _ _ (Hin f)).
    destruct (visibility_apart_fold_hide els w f) as (_ & _ & _ & _ & _ & _ & Hc).
    unfold marked. fold w1 in Hc. rewrite (Hc "is-invalid") by discriminate.
    reflexivity. }
  destruct (onSubmit_calls ctl w1) as (w' & Hrun & Hok & Hbad).
  { reflexivity. }
  { intros f Hf. simpl in Hf. rewrite Hfs in Hf.
    rewrite <- (inputs_eq_getFieldKey _ _ (Hin f)). apply Hkey, Hf. }
  simpl fields in *. rewrite Hfs in *.
  rewrite (forallb_same _ _ _ Hpasses) in Hok, Hbad.
  rewrite (find_same _ _ _ (fun f _ => Hleft f)) in Hbad.
  destruct (event_fold_hide els w) as (Hd & Hp & Hf).
  exists w'. split; [rewrite bind_run, Hsetup; exact Hrun|].
  split.
  - intros Hall. destruct (Hok Hall) as (-> & -> & ->). auto.
  - exact Hbad.
Qed.

(** On [required_field_page] the listener cancels the submit and calls
    [focus()] on the field. *)
Lemma form_submit_witness :
  exists w',
    (ctl ← setupForm; @onSubmit Sample.platform ctl) required_field_page =
      (w', Normal tt) /\
    defaultPrevented w' = true /\ propagationStopped w' = true /\
    focused w' = Some 0.
Proof.
  assert (Hkey : forall f, In f (querySelectorAll isField required_field_page) ->
            getFieldKey (getElement required_field_page f) <> "constructor").
  { intros f Hf. vm_compute in Hf. destruct Hf as [<- | []]. discriminate. }
  destruct (@form_submit Sample.platform required_field_page Hkey)
    as (w' & Hrun & _ & Hbad).
  destruct (Hbad eq_refl) as (Hd & Hp & f0 & Hf0 & Hfind).
  exists w'. split; [exact Hrun|]. split; [exact Hd|]. split; [exact Hp|].
  rewrite Hf0. f_equal.
  apply List.find_some in Hfind as [Hin _].
  vm_compute in Hin. destruct Hin as [<- | []]. reflexivity.
Defined.

(** X18: when [handleField] finds an error element for a generic field whose
    verdict is invalid, on submit, or in any context while the trimmed value
    is not empty, it returns false, marks the field invalid, makes the
    element visible and puts the message for the verdict's reason into it:
    the slot's default message for 'required', the field's
    [data-second-error], if it has one, for 'format'. *)
Theorem handleField_shows `{Platform} (ctl : FormController) (field s : nat)
    (context : string) (w : World) :
  field < length (elements w) -> s < length (elements w) ->
  isCheckable (getElement w field) = false ->
  lookupErrorEl (errorMap ctl) (getElement w field) = VElement s ->
  valid (verdictOf ctl w field) = false ->
  context = "submit" \/ trim (value (getElement w field)) <> "" ->
  exists w',
    handleField ctl field context w = (w', Normal false) /\
    classList_contains (getElement w' field) "is-invalid" = true /\
    classList_contains (getElement w' s) "is-visible" = true /\
    textContent (getElement w' s) =
      shownMessage w field s (reason (verdictOf ctl w field)) /\
    (reason (verdictOf ctl w field) = Some "required" ->
       textContent (getElement w' s) = capturedDefault w s).
Proof.
  intros Hf Hs Hc Hel Hv Hctx.
  assert (Hshow : hasErrorToShow (getElement w field)
            (if isEmpty context then "other" else context)
            (verdictOf ctl w field) = true).
  { unfold hasErrorToShow. rewrite Hc, Hv. simpl.
    destruct Hctx as [-> | Hne]; [reflexivity|].
    apply isEmpty_false in Hne. rewrite Hne.
    destruct (isInteraction _); reflexivity. }
  rewrite handleField_run, Hel, Hshow, Hv, bind_run.
  rewrite setFieldErrorState_show_element.
  destruct (setFieldErrorState_presented field (VElement s) true
              (reason (verdictOf ctl w field)) w) as (w' & Hrun & Hp);
    [discriminate|].
  rewrite setFieldErrorState_show_element in Hrun. injection Hrun as <-.
  eexists. split; [reflexivity|].
  split; [apply (presented_field _ _ _ _ Hp Hf)|].
  split; [apply shown_slot_visible, Hs|].
  split; [apply shown_slot_text, Hs|].
  intros Hr. rewrite shown_slot_text by exact Hs.
  unfold shownMessage. rewrite Hr.
  destruct (getAttribute (getElement w field) "data-second-error"); reflexivity.
Qed.

(** The required empty field of [required_field_page], on submit: its slot
    shows its own text. *)
Lemma handleField_shows_witness :
  exists w',
    @handleField Sample.platform (mkController {["city" := 1]} [0]) 0 "submit"
      required_field_page = (w', Normal false) /\
    textContent (getElement w' 1) = "This field is required".
Proof.
  destruct (@handleField_shows Sample.platform (mkController {["city" := 1]} [0])
    0 1 "submit" required_field_page)
    as (w' & Hrun & _ & _ & _ & Hreq);
    try first [reflexivity | simpl; lia | left; reflexivity].
  exists w'. split; [exact Hrun|]. apply Hreq. reflexivity.
Defined.

(** X19: the key of a field comes from the first of [name], [id] and
    [data-name] that is present and not empty, the choice being made on the
    raw attribute: a [name] that is not empty decides alone, also when it
    normalizes to the empty key; the key holds characters of [a-z0-9] only,
    and a field with none of the three has the empty key. *)
Theorem getFieldKey_priority (f : Element) :
  (forall n, getAttribute f "name" = Some n -> n <> "" ->
     getFieldKey f = normalizeKey (Some n)) /\
  (getAttribute f "name" = None \/ getAttribute f "name" = Some "" ->
   forall i, getAttribute f "id" = Some i -> i <> "" ->
     getFieldKey f = normalizeKey (Some i)) /\
  (getAttribute f "name" = None \/ getAttribute f "name" = Some "" ->
   getAttribute f "id" = None \/ getAttribute f "id" = Some "" ->
     getFieldKey f = normalizeKey (getAttribute f "data-name")) /\
  sforall isKeyChar (getFieldKey f) = true.
Proof.
  unfold getFieldKey. split; [|split; [|split]].
  - intros n -> Hn. apply isEmpty_false in Hn. simpl. rewrite Hn. simpl.
    rewrite Hn. reflexivity.
  - intros Hname i -> Hi. apply isEmpty_false in Hi.
    destruct Hname as [-> | ->]; simpl; rewrite Hi; reflexivity.
  - intros Hname Hid.
    destruct Hname as [-> | ->], Hid as [-> | ->]; reflexivity.
  - apply normalizeKey_key_chars.
Qed.

(** A field named ["--"] with the id ["city"] has the empty key. *)
Lemma getFieldKey_priority_witness :
  getFieldKey (Sample.input "text" [("name", "--"); ("id", "city")] "") = "".
Proof.
  refine (eq_trans (proj1 (getFieldKey_priority
    (Sample.input "text" [("name", "--"); ("id", "city")] "")) "--" _ _) _);
    first [reflexivity | discriminate].
Defined.
